(** * Post-execution views of zenml: [PEArtifact] and [PEStep]

    A shallow embedding of [src/zenml/post_execution/artifact.py] and
    [src/zenml/post_execution/step.py], and the properties of the lazy
    join, of the status derivation and of artifact materialization. *)

From Stdlib Require Import ZArith List String Bool Lia.
Import ListNotations.
Local Open Scope string_scope.
Local Open Scope list_scope.

Set Implicit Arguments.

(** ** Python values, exceptions and results *)

(** The few Python values that show up as exception arguments, dictionary
    keys and materialized payloads. *)
Inductive pyval : Type :=
| PyInt (z : Z)
| PyStr (s : string).

(** The exceptions this layer raises or lets through.  [KeyError] and
    [IndexError] are the two built-in subclasses of [LookupError]. *)
Inductive exn : Type :=
| KeyError (arg : pyval)
| IndexError (msg : string)
| LookupError (msg : string)
| OtherError (cls msg : string).

Definition is_LookupError (e : exn) : bool :=
  match e with
  | KeyError _ | IndexError _ | LookupError _ => true
  | OtherError _ _ => false
  end.

Inductive result (A : Type) : Type :=
| Ok (a : A)
| Raise (e : exn).
Arguments Ok {A} a.
Arguments Raise {A} e.

(** ** A state monad with exceptions

    A raised exception keeps every mutation made before it, as in Python. *)
Definition M (S A : Type) : Type := S -> result A * S.

Definition ret {S A} (a : A) : M S A := fun s => (Ok a, s).
Definition raise {S A} (e : exn) : M S A := fun s => (Raise e, s).
Definition lift {S A} (r : result A) : M S A := fun s => (r, s).
Definition gets {S A} (f : S -> A) : M S A := fun s => (Ok (f s), s).
Definition modify {S} (f : S -> S) : M S unit := fun s => (Ok tt, f s).

Definition bind {S A B} (m : M S A) (k : A -> M S B) : M S B :=
  fun s => match m s with
           | (Ok a, s') => k a s'
           | (Raise e, s') => (Raise e, s')
           end.

Notation "x <- m ;; k" := (bind m (fun x => k))
  (at level 61, m at next level, right associativity).
Notation "m ;;; k" := (bind m (fun _ => k))
  (at level 61, right associativity).

(** [for x in xs: body(x)] *)
Fixpoint for_ {S A} (xs : list A) (body : A -> M S unit) : M S unit :=
  match xs with
  | [] => ret tt
  | x :: rest => body x ;;; for_ rest body
  end.

(** [try: body  except KeyError: handler] *)
Definition try_except_KeyError {S A} (body handler : M S A) : M S A :=
  fun s => match body s with
           | (Raise (KeyError _), s') => handler s'
           | r => r
           end.

(** ** Dictionaries

    A [dict] (and an [OrderedDict]) iterates in insertion order, and an
    assignment to a key that is already present replaces the value where the
    key stands. *)
Class PyKey (K : Type) : Type := {
  key_eqb : K -> K -> bool;
  key_eqb_eq : forall a b, key_eqb a b = true <-> a = b;
  key_val : K -> pyval
}.

#[export] Instance PyKey_string : PyKey string :=
  {| key_eqb := String.eqb; key_eqb_eq := String.eqb_eq; key_val := PyStr |}.
#[export] Instance PyKey_Z : PyKey Z :=
  {| key_eqb := Z.eqb; key_eqb_eq := Z.eqb_eq; key_val := PyInt |}.

Module Dict.
Section Dict.
Context {K V : Type} `{PyKey K}.

Definition t : Type := list (K * V).

(** [d[k] = v] *)
Fixpoint setitem (d : list (K * V)) (k : K) (v : V) : list (K * V) :=
  match d with
  | [] => [(k, v)]
  | (k', v') :: rest =>
      if key_eqb k k' then (k', v) :: rest
      else (k', v') :: setitem rest k v
  end.

(** [d.get(k)] *)
Fixpoint get (d : list (K * V)) (k : K) : option V :=
  match d with
  | [] => None
  | (k', v') :: rest => if key_eqb k k' then Some v' else get rest k
  end.

(** [d[k]] *)
Definition getitem (d : list (K * V)) (k : K) : result V :=
  match get d k with
  | Some v => Ok v
  | None => Raise (KeyError (key_val k))
  end.

(** [k in d] *)
Definition contains (d : list (K * V)) (k : K) : bool :=
  match get d k with Some _ => true | None => false end.

Definition keys (d : list (K * V)) : list K := map fst d.
Definition values (d : list (K * V)) : list V := map snd d.

(** truth value of a dictionary: non-empty *)
Definition truthy (d : list (K * V)) : bool :=
  match d with [] => false | _ :: _ => true end.

(** [{key(x): val(x) for x in xs}] *)
Definition comprehension {A} (key : A -> K) (val : A -> V) (xs : list A)
  : list (K * V) :=
  fold_left (fun d x => setitem d (key x) (val x)) xs [].
End Dict.
End Dict.

(** [xs[0]] on a sequence *)
Definition getitem0 {A} (xs : list A) : result A :=
  match xs with
  | [] => Raise (IndexError "list index out of range")
  | x :: _ => Ok x
  end.

(** [zip(xs, ys)] stops at the shorter argument. *)
Definition zip {A B} (xs : list A) (ys : list B) : list (A * B) := combine xs ys.

(** ** Records of the metadata store (read-only) *)

Module ArtifactType.
Record t : Type := { id : Z; name : string }.
End ArtifactType.

Module Value.
Record t : Type := { string_value : string }.
End Value.

Module Artifact.
Record t : Type :=
  { id : Z; type_id : Z; uri : string; properties : list (string * Value.t) }.
End Artifact.

Module Event.
Record Step : Type := { key : string }.
Record Path : Type := { steps : list Step }.
(** [type_] is the field [type] of the source. *)
Record t : Type :=
  { execution_id : Z; artifact_id : Z; type_ : Z; path : Path }.
End Event.

Module Execution.
Record t : Type := { id : Z; last_known_state : Z }.
End Execution.

(** The query interface of [self._metadata_store.store]. *)
Module MetadataStore.
Record t : Type := {
  get_executions_by_id : list Z -> list Execution.t;
  get_artifact_types : list ArtifactType.t;
  get_events_by_execution_ids : list Z -> list Event.t;
  get_artifacts_by_id : list Z -> list Artifact.t
}.
End MetadataStore.

(** A call made on the store or on the source loader, as recorded in a
    session's log. *)
Inductive Call : Type :=
| Call_get_executions_by_id (ids : list Z)
| Call_get_artifact_types
| Call_get_events_by_execution_ids (ids : list Z)
| Call_get_artifacts_by_id (ids : list Z)
| Call_load_source_path_class (source : string).

Definition is_events_call (c : Call) : bool :=
  match c with Call_get_events_by_execution_ids _ => true | _ => false end.
Definition is_executions_call (c : Call) : bool :=
  match c with Call_get_executions_by_id _ => true | _ => false end.

(** ** [PEArtifact] *)

Module PEArtifact.
Record t : Type :=
  { _id : Z; _type : string; _uri : string; _materializer : string }.

Definition type (self : t) : string := _type self.
Definition uri (self : t) : string := _uri self.
End PEArtifact.

(** A materializer class: calling it on an artifact view makes an instance,
    whose [handle_input()] decodes the payload stored at the view's uri. *)
Module Materializer.
Record instance : Type := { artifact : PEArtifact.t; handle_input : result pyval }.
Record class : Type := { __qualname__ : string; init : PEArtifact.t -> instance }.
End Materializer.

(** ** What the two modules import from outside this repository's sources

    The enum values of the store's records, the property key under which the
    materializer is stored, the item access of a record's property map, the
    loader of a class from its source path, and the rendering of a list of
    names inside an f-string. *)
Record Externals : Type := {
  COMPLETE : Z;
  CACHED : Z;
  RUNNING : Z;
  INPUT : Z;
  OUTPUT : Z;
  MATERIALIZERS_PROPERTY_KEY : string;
  properties_getitem : list (string * Value.t) -> string -> result Value.t;
  load_source_path_class : string -> result Materializer.class;
  format_names : list string -> string
}.


(** ** [PEStep] *)

Inductive ExecutionStatus : Type :=
| Failed
| Completed
| Running.

(** the string value of each member of the enum *)
Definition ExecutionStatus_value (s : ExecutionStatus) : string :=
  match s with
  | Failed => "Failed"
  | Completed => "Succeeded"
  | Running => "Running"
  end.

Module PEStep.
Record t : Type := {
  _id : Z;
  _name : string;
  _parameters : list (string * pyval);
  _metadata_store : MetadataStore.t;
  _inputs : list (string * PEArtifact.t);
  _outputs : list (string * PEArtifact.t)
}.

Definition __init__ (id_ : Z) (name : string) (parameters : list (string * pyval))
  (metadata_store : MetadataStore.t) : t :=
  {| _id := id_; _name := name; _parameters := parameters;
     _metadata_store := metadata_store; _inputs := []; _outputs := [] |}.

Definition name (self : t) : string := _name self.
Definition parameters (self : t) : list (string * pyval) := _parameters self.

Definition with_inputs (self : t) (d : list (string * PEArtifact.t)) : t :=
  {| _id := _id self; _name := _name self; _parameters := _parameters self;
     _metadata_store := _metadata_store self; _inputs := d;
     _outputs := _outputs self |}.

Definition with_outputs (self : t) (d : list (string * PEArtifact.t)) : t :=
  {| _id := _id self; _name := _name self; _parameters := _parameters self;
     _metadata_store := _metadata_store self; _inputs := _inputs self;
     _outputs := d |}.
End PEStep.

(** One step view together with the log of the calls it has made so far. *)
Record Session : Type := { self : PEStep.t; log : list Call }.

Definition new_session (id_ : Z) (name : string) (parameters : list (string * pyval))
  (metadata_store : MetadataStore.t) : Session :=
  {| self := PEStep.__init__ id_ name parameters metadata_store; log := [] |}.

(** A query on [self._metadata_store.store], recorded in the log. *)
Definition store_call {A} (c : Call) (query : MetadataStore.t -> A) : M Session A :=
  fun s => (Ok (query (PEStep._metadata_store (self s))),
            {| self := self s; log := log s ++ [c] |}).

Definition update_self (f : PEStep.t -> PEStep.t) : M Session unit :=
  modify (fun s => {| self := f (self s); log := log s |}).

(** How often the event-fetch method, and the execution-fetch method, of the
    store has been invoked. *)
Definition events_fetches (s : Session) : nat :=
  List.length (filter is_events_call (log s)).
Definition executions_fetches (s : Session) : nat :=
  List.length (filter is_executions_call (log s)).

(** The accessors through which a caller reaches the inputs and outputs. *)
Inductive Access : Type :=
| Access_inputs
| Access_outputs
| Access_get_input_names
| Access_get_output_names
| Access_get_input (name : string)
| Access_get_output (name : string).

(** The session after a computation, whether it returned or raised. *)
Definition after {A} (m : M Session A) (s : Session) : Session := snd (m s).

Section PostExecution.
Variable ext : Externals.

(** *** artifact.py *)

Definition call_load_source_path_class (source : string)
  : M (list Call) Materializer.class :=
  fun l => (load_source_path_class ext source,
            l ++ [Call_load_source_path_class source]).

(** [PEArtifact.read] *)
Definition read (self : PEArtifact.t)
  (materializer_class : option Materializer.class) : M (list Call) pyval :=
  materializer_class <-
    match materializer_class with
    | Some c => ret c
    | None => call_load_source_path_class (PEArtifact._materializer self)
    end ;;
  lift (Materializer.handle_input (Materializer.init materializer_class self)).

(** *** step.py *)

(** [PEStep.status] *)
Definition status : M Session ExecutionStatus :=
  id_ <- gets (fun s => PEStep._id (self s)) ;;
  executions <- store_call (Call_get_executions_by_id [id_])
                  (fun st => MetadataStore.get_executions_by_id st [id_]) ;;
  proto <- lift (getitem0 executions) ;;
  let state := Execution.last_known_state proto in
  if (state =? COMPLETE ext)%Z || (state =? CACHED ext)%Z then ret Completed
  else if (state =? RUNNING ext)%Z then ret Running
  else ret Failed.

(** The body of the loop of [_ensure_inputs_outputs_fetched]. *)
Definition join_pair (artifact_type_mapping : list (Z * string))
  (pair : Event.t * Artifact.t) : M Session unit :=
  let (event_proto, artifact_proto) := pair in
  artifact_type <-
    lift (Dict.getitem artifact_type_mapping (Artifact.type_id artifact_proto)) ;;
  step0 <- lift (getitem0 (Event.steps (Event.path event_proto))) ;;
  let artifact_name := Event.key step0 in
  property <- lift (properties_getitem ext (Artifact.properties artifact_proto)
                      (MATERIALIZERS_PROPERTY_KEY ext)) ;;
  let materializer := Value.string_value property in
  let artifact :=
    {| PEArtifact._id := Event.artifact_id event_proto;
       PEArtifact._type := artifact_type;
       PEArtifact._uri := Artifact.uri artifact_proto;
       PEArtifact._materializer := materializer |} in
  if (Event.type_ event_proto =? INPUT ext)%Z then
    update_self (fun st =>
      PEStep.with_inputs st (Dict.setitem (PEStep._inputs st) artifact_name artifact))
  else if (Event.type_ event_proto =? OUTPUT ext)%Z then
    update_self (fun st =>
      PEStep.with_outputs st (Dict.setitem (PEStep._outputs st) artifact_name artifact))
  else ret tt.

(** [PEStep._ensure_inputs_outputs_fetched] *)
Definition _ensure_inputs_outputs_fetched : M Session unit :=
  st <- gets self ;;
  if Dict.truthy (PEStep._inputs st) || Dict.truthy (PEStep._outputs st) then
    ret tt
  else
    types <- store_call Call_get_artifact_types MetadataStore.get_artifact_types ;;
    let artifact_type_mapping :=
      Dict.comprehension ArtifactType.id ArtifactType.name types in
    events <- store_call (Call_get_events_by_execution_ids [PEStep._id st])
                (fun store =>
                   MetadataStore.get_events_by_execution_ids store [PEStep._id st]) ;;
    let artifact_ids := map Event.artifact_id events in
    artifacts <- store_call (Call_get_artifacts_by_id artifact_ids)
                   (fun store => MetadataStore.get_artifacts_by_id store artifact_ids) ;;
    for_ (zip events artifacts) (join_pair artifact_type_mapping).

(** [PEStep.inputs] *)
Definition inputs : M Session (list PEArtifact.t) :=
  _ensure_inputs_outputs_fetched ;;;
  gets (fun s => Dict.values (PEStep._inputs (self s))).

(** [PEStep.get_input_names] *)
Definition get_input_names : M Session (list string) :=
  _ensure_inputs_outputs_fetched ;;;
  gets (fun s => Dict.keys (PEStep._inputs (self s))).

Definition no_input_message (name : string) (names : list string) : string :=
  "No input artifact found for name `" ++ name ++ "`. "
  ++ "This step only has inputs with the following "
  ++ "names: `" ++ format_names ext names ++ "`".

(** [PEStep.get_input] *)
Definition get_input (name : string) : M Session PEArtifact.t :=
  _ensure_inputs_outputs_fetched ;;;
  try_except_KeyError
    (d <- gets (fun s => PEStep._inputs (self s)) ;;
     lift (Dict.getitem d name))
    (names <- get_input_names ;;
     raise (KeyError (PyStr (no_input_message name names)))).

(** [PEStep.outputs] *)
Definition outputs : M Session (list PEArtifact.t) :=
  _ensure_inputs_outputs_fetched ;;;
  gets (fun s => Dict.values (PEStep._outputs (self s))).

(** [PEStep.get_output_names] *)
Definition get_output_names : M Session (list string) :=
  _ensure_inputs_outputs_fetched ;;;
  gets (fun s => Dict.keys (PEStep._outputs (self s))).

Definition no_output_message (name : string) (names : list string) : string :=
  "No output artifact found for name `" ++ name ++ "`. "
  ++ "This step only has outputs with the following "
  ++ "names: `" ++ format_names ext names ++ "`".

(** [PEStep.get_output] *)
Definition get_output (name : string) : M Session PEArtifact.t :=
  _ensure_inputs_outputs_fetched ;;;
  try_except_KeyError
    (d <- gets (fun s => PEStep._outputs (self s)) ;;
     lift (Dict.getitem d name))
    (names <- get_output_names ;;
     raise (KeyError (PyStr (no_output_message name names)))).

(** One access by a caller that goes on whether the access returned or
    raised. *)
Definition access (a : Access) (s : Session) : Session :=
  match a with
  | Access_inputs => after inputs s
  | Access_outputs => after outputs s
  | Access_get_input_names => after get_input_names s
  | Access_get_output_names => after get_output_names s
  | Access_get_input name => after (get_input name) s
  | Access_get_output name => after (get_output name) s
  end.

Definition accesses (l : list Access) (s : Session) : Session :=
  fold_left (fun s a => access a s) l s.

End PostExecution.

(** ** The join, seen from outside

    The loop of [_ensure_inputs_outputs_fetched] first builds the artifact
    view of a pair, which may raise, and then inserts it; these functions
    describe the two halves without the session around them. *)

Section JoinFunctions.
Variable ext : Externals.

(** The name and the view the loop body builds from one pair, or the
    exception it raises before inserting anything. *)
Definition resolve (artifact_type_mapping : list (Z * string))
  (pair : Event.t * Artifact.t) : result (string * PEArtifact.t) :=
  match Dict.getitem artifact_type_mapping (Artifact.type_id (snd pair)) with
  | Raise e => Raise e
  | Ok artifact_type =>
      match getitem0 (Event.steps (Event.path (fst pair))) with
      | Raise e => Raise e
      | Ok step0 =>
          match properties_getitem ext (Artifact.properties (snd pair))
                  (MATERIALIZERS_PROPERTY_KEY ext) with
          | Raise e => Raise e
          | Ok property =>
              Ok (Event.key step0,
                  {| PEArtifact._id := Event.artifact_id (fst pair);
                     PEArtifact._type := artifact_type;
                     PEArtifact._uri := Artifact.uri (snd pair);
                     PEArtifact._materializer := Value.string_value property |})
          end
      end
  end.

(** The event is tagged [INPUT]; the event reaches the [elif] and is tagged
    [OUTPUT]. *)
Definition is_input (e : Event.t) : bool := (Event.type_ e =? INPUT ext)%Z.
Definition is_output (e : Event.t) : bool :=
  negb (Event.type_ e =? INPUT ext)%Z && (Event.type_ e =? OUTPUT ext)%Z.

(** The insertion at the end of the loop body. *)
Definition insert (e : Event.t) (entry : string * PEArtifact.t) (st : PEStep.t)
  : PEStep.t :=
  if is_input e then
    PEStep.with_inputs st (Dict.setitem (PEStep._inputs st) (fst entry) (snd entry))
  else if is_output e then
    PEStep.with_outputs st (Dict.setitem (PEStep._outputs st) (fst entry) (snd entry))
  else st.

(** The whole loop on the step view alone. *)
Fixpoint join_loop (artifact_type_mapping : list (Z * string))
  (pairs : list (Event.t * Artifact.t)) (st : PEStep.t) : result unit * PEStep.t :=
  match pairs with
  | [] => (Ok tt, st)
  | p :: rest =>
      match resolve artifact_type_mapping p with
      | Raise e => (Raise e, st)
      | Ok entry => join_loop artifact_type_mapping rest (insert (fst p) entry st)
      end
  end.

(** What the step view asks the store for in one join. *)
Definition type_mapping_of (store : MetadataStore.t) : list (Z * string) :=
  Dict.comprehension ArtifactType.id ArtifactType.name
    (MetadataStore.get_artifact_types store).

Definition events_of (store : MetadataStore.t) (id_ : Z) : list Event.t :=
  MetadataStore.get_events_by_execution_ids store [id_].

Definition artifacts_of (store : MetadataStore.t) (id_ : Z) : list Artifact.t :=
  MetadataStore.get_artifacts_by_id store (map Event.artifact_id (events_of store id_)).

Definition pairs_of (store : MetadataStore.t) (id_ : Z) : list (Event.t * Artifact.t) :=
  zip (events_of store id_) (artifacts_of store id_).

Definition join_calls (store : MetadataStore.t) (id_ : Z) : list Call :=
  [Call_get_artifact_types;
   Call_get_events_by_execution_ids [id_];
   Call_get_artifacts_by_id (map Event.artifact_id (events_of store id_))].

End JoinFunctions.

(** Either mapping of the step view is non-empty. *)
Definition populated (st : PEStep.t) : bool :=
  Dict.truthy (PEStep._inputs st) || Dict.truthy (PEStep._outputs st).

(** The parameter name an event carries: the key of the first step of its
    path. *)
Definition param_name (e : Event.t) : string :=
  match Event.steps (Event.path e) with
  | [] => ""
  | step0 :: _ => Event.key step0
  end.

(** The names of a list in the order of their first occurrence. *)
Fixpoint first_occurrences (names : list string) : list string :=
  match names with
  | [] => []
  | n :: rest => n :: filter (fun m => negb (String.eqb m n)) (first_occurrences rest)
  end.

(** The two mappings of a step view, and the events that go to each. *)
Inductive Direction : Type :=
| Dir_input
| Dir_output.

Definition mapping (dir : Direction) (st : PEStep.t) : list (string * PEArtifact.t) :=
  match dir with
  | Dir_input => PEStep._inputs st
  | Dir_output => PEStep._outputs st
  end.

Definition tagged (ext : Externals) (dir : Direction) (e : Event.t) : bool :=
  match dir with
  | Dir_input => is_input ext e
  | Dir_output => is_output ext e
  end.

(** ** A sample environment and sample stores *)

Definition sample_class : Materializer.class :=
  {| Materializer.__qualname__ := "BuiltInMaterializer";
     Materializer.init := fun a =>
       {| Materializer.artifact := a;
          Materializer.handle_input :=
            Ok (PyStr ("payload at " ++ PEArtifact.uri a)%string) |} |}.


Definition sample_ext : Externals :=
  {| COMPLETE := 3; CACHED := 5; RUNNING := 2;
     INPUT := 3; OUTPUT := 4;
     MATERIALIZERS_PROPERTY_KEY := "materializers";
     properties_getitem := fun props k =>
       match Dict.get props k with
       | Some v => Ok v
       | None => Ok {| Value.string_value := "" |}
       end;
     load_source_path_class := fun source =>
       if String.eqb source "builtin.BuiltInMaterializer" then Ok sample_class
       else Raise (LookupError source);
     format_names := fun names =>
       ("[" ++ String.concat ", " (map (fun n => "'" ++ n ++ "'") names) ++ "]")%string |}.

(** An in-memory store: the events of the given executions, and the artifact
    of each requested id, in the order of the request. *)
Definition table_store (executions : list Execution.t) (types : list ArtifactType.t)
  (events : list Event.t) (artifacts : list Artifact.t) : MetadataStore.t :=
  {| MetadataStore.get_executions_by_id := fun ids =>
       flat_map (fun i => filter (fun x => (Execution.id x =? i)%Z) executions) ids;
     MetadataStore.get_artifact_types := types;
     MetadataStore.get_events_by_execution_ids := fun ids =>
       filter (fun e => existsb (Z.eqb (Event.execution_id e)) ids) events;
     MetadataStore.get_artifacts_by_id := fun ids =>
       flat_map (fun i => filter (fun a => (Artifact.id a =? i)%Z) artifacts) ids |}.

Definition mk_event (execution artifact type : Z) (name : string) : Event.t :=
  {| Event.execution_id := execution; Event.artifact_id := artifact;
     Event.type_ := type; Event.path := {| Event.steps := [ {| Event.key := name |} ] |} |}.

Definition mk_artifact (id_ type_id : Z) (uri materializer : string) : Artifact.t :=
  {| Artifact.id := id_; Artifact.type_id := type_id; Artifact.uri := uri;
     Artifact.properties :=
       [("materializers", {| Value.string_value := materializer |})] |}.

Definition sample_types : list ArtifactType.t :=
  [ {| ArtifactType.id := 1; ArtifactType.name := "Dataset" |};
    {| ArtifactType.id := 2; ArtifactType.name := "Model" |} ].

(** One completed execution with an input "data" and an output "model". *)
Definition round_trip_store : MetadataStore.t :=
  table_store
    [ {| Execution.id := 1; Execution.last_known_state := 3 |} ]
    sample_types
    [ mk_event 1 10 3 "data"; mk_event 1 20 4 "model" ]
    [ mk_artifact 10 1 "/a/10" "builtin.BuiltInMaterializer";
      mk_artifact 20 2 "/a/20" "builtin.BuiltInMaterializer" ].

(** An execution that is recorded with neither inputs nor outputs. *)
Definition no_events_store : MetadataStore.t :=
  table_store [ {| Execution.id := 1; Execution.last_known_state := 2 |} ]
    sample_types [] [].

(** The second artifact has a type the type dictionary does not know. *)
Definition unknown_type_store : MetadataStore.t :=
  table_store [ {| Execution.id := 1; Execution.last_known_state := 3 |} ]
    sample_types
    [ mk_event 1 10 3 "a"; mk_event 1 11 3 "b" ]
    [ mk_artifact 10 1 "/a/10" "builtin.BuiltInMaterializer";
      mk_artifact 11 99 "/a/11" "builtin.BuiltInMaterializer" ].

(** A step declared as [def trainer(a, b)] whose events the store returns
    with "b" first. *)
Definition declared_inputs : list string := ["a"; "b"].
Definition swapped_store : MetadataStore.t :=
  table_store [ {| Execution.id := 1; Execution.last_known_state := 3 |} ]
    sample_types
    [ mk_event 1 11 3 "b"; mk_event 1 10 3 "a" ]
    [ mk_artifact 10 1 "/a/10" "builtin.BuiltInMaterializer";
      mk_artifact 11 1 "/a/11" "builtin.BuiltInMaterializer" ].

(** Two input events carry the name "a", with "b" between them. *)
Definition duplicate_store : MetadataStore.t :=
  table_store [ {| Execution.id := 1; Execution.last_known_state := 3 |} ]
    sample_types
    [ mk_event 1 10 3 "a"; mk_event 1 11 3 "b"; mk_event 1 12 3 "a" ]
    [ mk_artifact 10 1 "/a/10" "builtin.BuiltInMaterializer";
      mk_artifact 11 1 "/a/11" "builtin.BuiltInMaterializer";
      mk_artifact 12 2 "/a/12" "builtin.BuiltInMaterializer" ].

(** The store knows three events but only the first two artifacts. *)
Definition short_store : MetadataStore.t :=
  table_store [ {| Execution.id := 1; Execution.last_known_state := 3 |} ]
    sample_types
    [ mk_event 1 10 3 "a"; mk_event 1 11 3 "b"; mk_event 1 12 4 "c" ]
    [ mk_artifact 10 1 "/a/10" "builtin.BuiltInMaterializer";
      mk_artifact 11 1 "/a/11" "builtin.BuiltInMaterializer" ].

Definition sample_session (store : MetadataStore.t) : Session :=
  new_session 1 "trainer" [] store.

(** ** A loader in the manner of an import, and a store whose only pair
    does not resolve *)




(** The store returns one input event, "b", whose artifact has a type the
    type dictionary does not know. *)
Definition unresolvable_store : MetadataStore.t :=
  table_store [ {| Execution.id := 1; Execution.last_known_state := 3 |} ]
    sample_types
    [ mk_event 1 11 3 "b" ]
    [ mk_artifact 11 99 "/a/11" "builtin.BuiltInMaterializer" ].

(** ** What an access raises *)

Definition raised {A} (r : result A) : option exn :=
  match r with
  | Ok _ => None
  | Raise e => Some e
  end.

(** The exception an access ends with, if any. *)
Definition access_raised (ext : Externals) (a : Access) (s : Session) : option exn :=
  match a with
  | Access_inputs => raised (fst (inputs ext s))
  | Access_outputs => raised (fst (outputs ext s))
  | Access_get_input_names => raised (fst (get_input_names ext s))
  | Access_get_output_names => raised (fst (get_output_names ext s))
  | Access_get_input name => raised (fst (get_input ext name s))
  | Access_get_output name => raised (fst (get_output ext name s))
  end.

(** No name occurs twice in either mapping. *)
Definition names_distinct (st : PEStep.t) : Prop :=
  NoDup (Dict.keys (PEStep._inputs st)) /\ NoDup (Dict.keys (PEStep._outputs st)).

(** ** Invariants of a step view and of its session *)

(** The log of a session is made of whole joins of one step. *)
Definition log_of_joins (store : MetadataStore.t) (id_ : Z) (s : Session) : Prop :=
  PEStep._id (self s) = id_
  /\ PEStep._metadata_store (self s) = store
  /\ log s = List.concat (repeat (join_calls store id_) (events_fetches s)).

(** The execution id, the name, the parameters and the store of [st] are
    those of [st0]. *)
Definition same_identity (st0 st : PEStep.t) : Prop :=
  PEStep._id st = PEStep._id st0
  /\ PEStep._name st = PEStep._name st0
  /\ PEStep._parameters st = PEStep._parameters st0
  /\ PEStep._metadata_store st = PEStep._metadata_store st0.

(** The entries of a step view are views of pairs of its own store. *)
Definition entries_from_pairs (ext : Externals) (store : MetadataStore.t) (id_ : Z) (st : PEStep.t)
  : Prop :=
  PEStep._id st = id_
  /\ PEStep._metadata_store st = store
  /\ forall (dir : Direction) (n : string) (v : PEArtifact.t),
       In (n, v) (mapping dir st) ->
       exists p, In p (pairs_of store id_) /\ tagged ext dir (fst p) = true
                 /\ resolve ext (type_mapping_of store) p = Ok (n, v).

(** The sizes of the two mappings stay within the pairs of each tag. *)
Definition sizes_within_pairs (ext : Externals) (store : MetadataStore.t) (id_ : Z) (st : PEStep.t)
  : Prop :=
  PEStep._id st = id_
  /\ PEStep._metadata_store st = store
  /\ forall dir : Direction,
       List.length (mapping dir st)
       <= List.length (filter (tagged ext dir) (map fst (pairs_of store id_))).

(** ** The examples and their test

    [tests/integration/test_examples.py], [examples/huggingface/run_pipeline.py]
    and [examples/huggingface/sequence_classification.py]. *)

(** [r] then [k], for code that raises but has no state. *)
Definition and_then {A B} (r : result A) (k : A -> result B) : result B :=
  match r with
  | Ok a => k a
  | Raise e => Raise e
  end.

Module TestExamples.

(** [example_runner]: [os.environ] is a mapping from names to values;
    [SHELL_EXECUTABLE] and [EXAMPLES_RUN_SCRIPT] are constants of [zenml.cli],
    and [path_str d f] stands for [str(d / f)] of [pathlib]. *)
Definition example_runner (environ : list (string * string))
  (SHELL_EXECUTABLE EXAMPLES_RUN_SCRIPT : string)
  (path_str : string -> string -> string) (examples_dir : string)
  : result (list string) :=
  and_then
    (if Dict.contains environ SHELL_EXECUTABLE
     then and_then (Dict.getitem environ SHELL_EXECUTABLE) (fun shell => Ok [shell])
     else Ok [])
    (fun prefix => Ok (prefix ++ [path_str examples_dir EXAMPLES_RUN_SCRIPT])).

End TestExamples.

Module SequenceClassification.

(** The names bound at the top level of [sequence_classification.py], in
    the order of the file: its imports, its class, its steps and its
    pipeline. *)
Definition top_level_names : list string :=
  [ "mlflow"; "tf"; "load_dataset"; "DatasetDict";
    "AutoTokenizer"; "DataCollatorWithPadding"; "PreTrainedTokenizerBase";
    "TFAutoModelForSequenceClassification"; "TFPreTrainedModel"; "create_optimizer";
    "enable_mlflow"; "pipeline"; "BaseStepConfig"; "step";
    "SequenceClassificationConfig";
    "data_importer"; "load_tokenizer"; "tokenization"; "trainer"; "evaluator";
    "train_eval_pipeline" ].

(** The expression [num_train_steps] of [trainer]:
    [(len(tokenized_datasets["train"]) // config.batch_size) * config.epochs],
    where [//] on integers rounds down and raises on a zero divisor. *)
Definition num_train_steps (train_len batch_size epochs : Z) : result Z :=
  if (batch_size =? 0)%Z
  then Raise (OtherError "ZeroDivisionError" "integer division or modulo by zero")
  else Ok ((train_len / batch_size) * epochs)%Z.

(** [preprocess_function] inside [tokenization]: [tokenizer texts max_length]
    stands for [tokenizer(texts, max_length=max_length, truncation=True)],
    which returns a mapping. *)
Definition preprocess_function {V : Type}
  (tokenizer : V -> Z -> result (list (string * V))) (max_seq_length : Z)
  (examples : list (string * V)) : result (list (string * V)) :=
  and_then (Dict.getitem examples "text") (fun text =>
  and_then (tokenizer text max_seq_length) (fun result_ =>
  and_then (Dict.getitem examples "label") (fun label =>
  Ok (Dict.setitem result_ "label" label)))).

End SequenceClassification.

Module RunPipeline.

(** The objects [main] handles: what a top-level name of a module is bound
    to, a command-line value, and what a call returned. *)
#[local] Unset Elimination Schemes.
Inductive obj : Type :=
| Attribute (module_ name : string)
| Str (s : string)
| Int (z : Z)
| Returned (callee : obj) (args : list obj) (kwargs : list (string * obj)).
#[local] Set Elimination Schemes.

(** What [main] does to the outside: calls, and pipeline runs. *)
Inductive effect : Type :=
| Call_ (callee : obj) (args : list obj) (kwargs : list (string * obj))
| Run (pipeline : obj).

(** What is not in the sources: the names that the module
    [token_classification] binds, whether a call returns or raises, and
    whether a pipeline run returns or raises. *)
Record World : Type := {
  token_classification_names : list string;
  call_result : obj -> list obj -> list (string * obj) -> result unit;
  run_result : obj -> result unit
}.

Definition AttributeError (module_ name : string) : exn :=
  OtherError "AttributeError"
    ("module '" ++ module_ ++ "' has no attribute '" ++ name ++ "'").

(** [module.name] *)
Definition getattr (module_ : string) (names : list string) (name : string)
  : M (list effect) obj :=
  if existsb (String.eqb name) names then ret (Attribute module_ name)
  else raise (AttributeError module_ name).

(** A call of [callee] with positional and keyword arguments. *)
Definition call (w : World) (callee : obj) (args : list obj)
  (kwargs : list (string * obj)) : M (list effect) obj :=
  fun l => (match call_result w callee args kwargs with
            | Ok _ => Ok (Returned callee args kwargs)
            | Raise e => Raise e
            end,
            l ++ [Call_ callee args kwargs]).

(** [pipeline.run()] *)
Definition run (w : World) (pipeline : obj) : M (list effect) unit :=
  fun l => (run_result w pipeline, l ++ [Run pipeline]).

(** One branch of [main]: the configuration, the pipeline of the module,
    its five steps each made from the configuration, and the run.  The
    callee of the pipeline call is looked up before its arguments are
    evaluated. *)
Definition branch (w : World) (module_ : string) (names : list string)
  (config_class pipeline_name : string)
  (pretrained_model : string) (batch_size epochs : Z) : M (list effect) unit :=
  config <- call w (Attribute module_ config_class) []
              [("pretrained_model", Str pretrained_model);
               ("epochs", Int epochs);
               ("batch_size", Int batch_size)] ;;
  pipeline_class <- getattr module_ names pipeline_name ;;
  f1 <- getattr module_ names "data_importer" ;;
  importer <- call w f1 [config] [] ;;
  f2 <- getattr module_ names "load_tokenizer" ;;
  load_tokenizer <- call w f2 [config] [] ;;
  f3 <- getattr module_ names "tokenization" ;;
  tokenization <- call w f3 [config] [] ;;
  f4 <- getattr module_ names "trainer" ;;
  trainer <- call w f4 [config] [] ;;
  f5 <- getattr module_ names "evaluator" ;;
  evaluator <- call w f5 [config] [] ;;
  pipeline <- call w pipeline_class []
                [("importer", importer); ("load_tokenizer", load_tokenizer);
                 ("tokenization", tokenization); ("trainer", trainer);
                 ("evaluator", evaluator)] ;;
  run w pipeline.

(** [main] *)
Definition main (w : World) (nlp_task pretrained_model : string)
  (batch_size epochs : Z) : M (list effect) unit :=
  if String.eqb nlp_task "token-classification" then
    branch w "token_classification" (token_classification_names w)
      "TokenClassificationConfig" "token_classifier_train_eval_pipeline"
      pretrained_model batch_size epochs
  else if String.eqb nlp_task "sequence-classification" then
    branch w "sequence_classification" SequenceClassification.top_level_names
      "SequenceClassificationConfig" "seq_classifier_train_eval_pipeline"
      pretrained_model batch_size epochs
  else ret tt.

Definition is_run (x : effect) : bool :=
  match x with Run _ => true | Call_ _ _ _ => false end.

(** A world in which every call and every run returns. *)
Definition obliging_world : World :=
  {| token_classification_names :=
       ["TokenClassificationConfig"; "token_classifier_train_eval_pipeline";
        "data_importer"; "load_tokenizer"; "tokenization"; "trainer"; "evaluator"];
     call_result := fun _ _ _ => Ok tt;
     run_result := fun _ => Ok tt |}.

End RunPipeline.

(** * Properties *)

(** ** The loop and the guard, step by step *)

Section JoinLemmas.
Variable ext : Externals.

Lemma session_eta (s : Session) : {| self := self s; log := log s |} = s.
Proof. destruct s; reflexivity. Qed.

Lemma join_pair_resolve (tm : list (Z * string)) (p : Event.t * Artifact.t)
  (s : Session) :
  join_pair ext tm p s =
  match resolve ext tm p with
  | Raise e => (Raise e, s)
  | Ok entry => (Ok tt, {| self := insert ext (fst p) entry (self s); log := log s |})
  end.
Proof.
  destruct p as [e a]. unfold join_pair, resolve, bind, lift. cbn [fst snd].
  destruct (Dict.getitem tm (Artifact.type_id a)) as [ty|x]; [|reflexivity].
  destruct (getitem0 (Event.steps (Event.path e))) as [st0|x]; [|reflexivity].
  destruct (properties_getitem ext (Artifact.properties a)
              (MATERIALIZERS_PROPERTY_KEY ext)) as [pr|x]; [|reflexivity].
  unfold insert, is_input, is_output. cbn [fst snd].
  destruct (Event.type_ e =? INPUT ext)%Z; [reflexivity|].
  cbn [negb andb].
  destruct (Event.type_ e =? OUTPUT ext)%Z; [reflexivity|].
  unfold ret. now rewrite session_eta.
Qed.

Lemma for_join_loop (tm : list (Z * string)) (pairs : list (Event.t * Artifact.t)) :
  forall s : Session,
    for_ pairs (join_pair ext tm) s =
    (fst (join_loop ext tm pairs (self s)),
     {| self := snd (join_loop ext tm pairs (self s)); log := log s |}).
Proof.
  induction pairs as [|p rest IH]; intros s; cbn [for_ join_loop].
  - unfold ret. cbn. now rewrite session_eta.
  - unfold bind. rewrite join_pair_resolve.
    destruct (resolve ext tm p) as [entry|e].
    + rewrite IH. reflexivity.
    + cbn. now rewrite session_eta.
Qed.

(** The guard and the join of [_ensure_inputs_outputs_fetched] in one
    equation. *)
Lemma ensure_unfold (s : Session) :
  _ensure_inputs_outputs_fetched ext s =
  if populated (self s) then (Ok tt, s)
  else
    let store := PEStep._metadata_store (self s) in
    let id_ := PEStep._id (self s) in
    let j := join_loop ext (type_mapping_of store) (pairs_of store id_) (self s) in
    (fst j, {| self := snd j; log := log s ++ join_calls store id_ |}).
Proof.
  unfold _ensure_inputs_outputs_fetched, bind, gets, populated.
  destruct (Dict.truthy (PEStep._inputs (self s)) || Dict.truthy (PEStep._outputs (self s)));
    [reflexivity|].
  unfold store_call. cbn [self log]. rewrite for_join_loop. cbn [self log].
  unfold pairs_of, artifacts_of, events_of, type_mapping_of, join_calls.
  rewrite <- !app_assoc. reflexivity.
Qed.

End JoinLemmas.

Section GuardLemmas.
Variable ext : Externals.

Lemma setitem_truthy (K V : Type) `{PyKey K} (d : list (K * V)) (k : K) (v : V) :
  Dict.truthy (Dict.setitem d k v) = true.
Proof.
  destruct d as [|[k' v'] rest]; cbn; [reflexivity|].
  destruct (key_eqb k k'); reflexivity.
Qed.

Lemma insert_same_or_populated (e : Event.t) (entry : string * PEArtifact.t)
  (st : PEStep.t) :
  insert ext e entry st = st \/ populated (insert ext e entry st) = true.
Proof.
  unfold insert. destruct (is_input ext e).
  - right. unfold populated. cbn. now rewrite setitem_truthy.
  - destruct (is_output ext e).
    + right. unfold populated. cbn. rewrite setitem_truthy. apply orb_true_r.
    + now left.
Qed.

Lemma insert_keeps_populated (e : Event.t) (entry : string * PEArtifact.t)
  (st : PEStep.t) :
  populated st = true -> populated (insert ext e entry st) = true.
Proof.
  intros Hp. destruct (insert_same_or_populated e entry st) as [-> | ->]; auto.
Qed.

Lemma insert_id (e : Event.t) (entry : string * PEArtifact.t) (st : PEStep.t) :
  PEStep._id (insert ext e entry st) = PEStep._id st
  /\ PEStep._metadata_store (insert ext e entry st) = PEStep._metadata_store st.
Proof.
  unfold insert. destruct (is_input ext e); [now cbn|].
  destruct (is_output ext e); now cbn.
Qed.

Lemma join_loop_keeps_populated (tm : list (Z * string))
  (pairs : list (Event.t * Artifact.t)) :
  forall st, populated st = true ->
             populated (snd (join_loop ext tm pairs st)) = true.
Proof.
  induction pairs as [|p rest IH]; intros st Hp; cbn [join_loop]; [exact Hp|].
  destruct (resolve ext tm p) as [entry|x]; [|exact Hp].
  apply IH, insert_keeps_populated, Hp.
Qed.

(** A join that leaves both mappings empty has inserted nothing. *)
Lemma join_loop_unpopulated (tm : list (Z * string))
  (pairs : list (Event.t * Artifact.t)) :
  forall st, populated (snd (join_loop ext tm pairs st)) = false ->
             snd (join_loop ext tm pairs st) = st.
Proof.
  induction pairs as [|p rest IH]; intros st Hu; cbn [join_loop] in *; [reflexivity|].
  destruct (resolve ext tm p) as [entry|x]; [|reflexivity].
  destruct (insert_same_or_populated (fst p) entry st) as [Heq | Hpop].
  - rewrite Heq in *. now apply IH.
  - apply (join_loop_keeps_populated tm rest) in Hpop. congruence.
Qed.

Lemma join_loop_id (tm : list (Z * string)) (pairs : list (Event.t * Artifact.t)) :
  forall st,
    PEStep._id (snd (join_loop ext tm pairs st)) = PEStep._id st
    /\ PEStep._metadata_store (snd (join_loop ext tm pairs st))
       = PEStep._metadata_store st.
Proof.
  induction pairs as [|p rest IH]; intros st; cbn [join_loop]; [now split|].
  destruct (resolve ext tm p) as [entry|x]; [|now split].
  destruct (IH (insert ext (fst p) entry st)) as [H1 H2].
  destruct (insert_id (fst p) entry st) as [H3 H4].
  split; congruence.
Qed.

Lemma ensure_populated (s : Session) :
  populated (self s) = true -> _ensure_inputs_outputs_fetched ext s = (Ok tt, s).
Proof. intros Hp. rewrite ensure_unfold, Hp. reflexivity. Qed.

Lemma events_fetches_app (l : list Call) (st : PEStep.t) (store : MetadataStore.t)
  (id_ : Z) :
  events_fetches {| self := st; log := l ++ join_calls store id_ |}
  = S (List.length (filter is_events_call l)).
Proof.
  unfold events_fetches. cbn [log]. rewrite filter_app, length_app. cbn. lia.
Qed.

Lemma ensure_unpopulated_fetches (s : Session) :
  populated (self s) = false ->
  events_fetches (after (_ensure_inputs_outputs_fetched ext) s) = S (events_fetches s).
Proof.
  intros Hu. unfold after. rewrite ensure_unfold, Hu. cbn [snd].
  apply events_fetches_app.
Qed.

(** Running the join again on a session that an earlier join left empty
    gives the same empty mappings. *)
Lemma ensure_twice_unpopulated (s : Session) :
  populated (self s) = false ->
  populated (self (after (_ensure_inputs_outputs_fetched ext) s)) = false ->
  let s1 := after (_ensure_inputs_outputs_fetched ext) s in
  self (after (_ensure_inputs_outputs_fetched ext) s1) = self s1
  /\ fst (_ensure_inputs_outputs_fetched ext s1)
     = fst (_ensure_inputs_outputs_fetched ext s)
  /\ events_fetches (after (_ensure_inputs_outputs_fetched ext) s1)
     = S (S (events_fetches s)).
Proof.
  intros Hu Hu1 s1. subst s1. unfold after in *.
  rewrite (ensure_unfold ext s) in *. rewrite Hu in *. cbn [snd fst self] in *.
  pose proof (join_loop_unpopulated _ _ _ Hu1) as Hsame.
  rewrite ensure_unfold. cbn [self log]. rewrite Hsame, Hu. cbn [snd fst self].
  rewrite Hsame. repeat split.
  rewrite !events_fetches_app, filter_app, length_app. cbn. unfold events_fetches. lia.
Qed.

End GuardLemmas.

(** ** The accessors in terms of the guard *)

Section AccessorLemmas.
Variable ext : Externals.

Lemma get_input_unfold (name : string) (s : Session) :
  get_input ext name s =
  match _ensure_inputs_outputs_fetched ext s with
  | (Raise e, s1) => (Raise e, s1)
  | (Ok _, s1) =>
      match Dict.get (PEStep._inputs (self s1)) name with
      | Some v => (Ok v, s1)
      | None =>
          match _ensure_inputs_outputs_fetched ext s1 with
          | (Raise e, s2) => (Raise e, s2)
          | (Ok _, s2) =>
              (Raise (KeyError (PyStr (no_input_message ext name
                                         (Dict.keys (PEStep._inputs (self s2)))))),
               s2)
          end
      end
  end.
Proof.
  unfold get_input, bind at 1.
  destruct (_ensure_inputs_outputs_fetched ext s) as [[u|e] s1]; [|reflexivity].
  unfold try_except_KeyError, bind at 1, gets, lift, Dict.getitem.
  destruct (Dict.get (PEStep._inputs (self s1)) name) as [v|]; [reflexivity|].
  unfold get_input_names, bind, gets, raise.
  destruct (_ensure_inputs_outputs_fetched ext s1) as [[u'|e'] s2]; reflexivity.
Qed.

Lemma get_output_unfold (name : string) (s : Session) :
  get_output ext name s =
  match _ensure_inputs_outputs_fetched ext s with
  | (Raise e, s1) => (Raise e, s1)
  | (Ok _, s1) =>
      match Dict.get (PEStep._outputs (self s1)) name with
      | Some v => (Ok v, s1)
      | None =>
          match _ensure_inputs_outputs_fetched ext s1 with
          | (Raise e, s2) => (Raise e, s2)
          | (Ok _, s2) =>
              (Raise (KeyError (PyStr (no_output_message ext name
                                         (Dict.keys (PEStep._outputs (self s2)))))),
               s2)
          end
      end
  end.
Proof.
  unfold get_output, bind at 1.
  destruct (_ensure_inputs_outputs_fetched ext s) as [[u|e] s1]; [|reflexivity].
  unfold try_except_KeyError, bind at 1, gets, lift, Dict.getitem.
  destruct (Dict.get (PEStep._outputs (self s1)) name) as [v|]; [reflexivity|].
  unfold get_output_names, bind, gets, raise.
  destruct (_ensure_inputs_outputs_fetched ext s1) as [[u'|e'] s2]; reflexivity.
Qed.

(** The four accessors without a name leave the session as the guard
    leaves it. *)
Lemma after_read_only (A : Type) (f : Session -> A) (s : Session) :
  after (_ensure_inputs_outputs_fetched ext ;;; gets f) s
  = after (_ensure_inputs_outputs_fetched ext) s.
Proof.
  unfold after, bind, gets.
  destruct (_ensure_inputs_outputs_fetched ext s) as [[u|e] s1]; reflexivity.
Qed.

(** A named accessor ends in the session of its first guard, or, when it
    had to list the valid names, in that of a second one. *)
Lemma after_get_input (name : string) (s : Session) :
  let s1 := after (_ensure_inputs_outputs_fetched ext) s in
  after (get_input ext name) s = s1
  \/ after (get_input ext name) s = after (_ensure_inputs_outputs_fetched ext) s1.
Proof.
  unfold after. rewrite get_input_unfold.
  destruct (_ensure_inputs_outputs_fetched ext s) as [[u|e] s1]; cbn [snd]; [|now left].
  destruct (Dict.get (PEStep._inputs (self s1)) name); [now left|].
  right. destruct (_ensure_inputs_outputs_fetched ext s1) as [[u'|e'] s2]; reflexivity.
Qed.

Lemma after_get_output (name : string) (s : Session) :
  let s1 := after (_ensure_inputs_outputs_fetched ext) s in
  after (get_output ext name) s = s1
  \/ after (get_output ext name) s = after (_ensure_inputs_outputs_fetched ext) s1.
Proof.
  unfold after. rewrite get_output_unfold.
  destruct (_ensure_inputs_outputs_fetched ext s) as [[u|e] s1]; cbn [snd]; [|now left].
  destruct (Dict.get (PEStep._outputs (self s1)) name); [now left|].
  right. destruct (_ensure_inputs_outputs_fetched ext s1) as [[u'|e'] s2]; reflexivity.
Qed.

(** Every access ends after one or two runs of the guard. *)
Lemma access_cases (a : Access) (s : Session) :
  let s1 := after (_ensure_inputs_outputs_fetched ext) s in
  access ext a s = s1
  \/ access ext a s = after (_ensure_inputs_outputs_fetched ext) s1.
Proof.
  destruct a; cbn [access];
    try (left; apply after_read_only).
  - apply after_get_input.
  - apply after_get_output.
Qed.

Lemma after_ensure_populated (s : Session) :
  populated (self s) = true -> after (_ensure_inputs_outputs_fetched ext) s = s.
Proof. intros Hp. unfold after. now rewrite ensure_populated. Qed.

Lemma access_populated (a : Access) (s : Session) :
  populated (self s) = true -> access ext a s = s.
Proof.
  intros Hp. pose proof (after_ensure_populated s Hp) as Hid.
  destruct (access_cases a s) as [-> | ->]; now rewrite ?Hid.
Qed.

Lemma accesses_populated (l : list Access) (s : Session) :
  populated (self s) = true -> accesses ext l s = s.
Proof.
  induction l as [|a l IH]; intros Hp; cbn; [reflexivity|].
  rewrite access_populated by exact Hp. apply IH, Hp.
Qed.

(** An access that starts with both mappings empty and ends with an entry
    in one of them has fetched the events once. *)
Lemma access_unpopulated_then_populated (a : Access) (s : Session) :
  populated (self s) = false ->
  populated (self (access ext a s)) = true ->
  events_fetches (access ext a s) = S (events_fetches s).
Proof.
  intros Hu Hp.
  destruct (access_cases a s) as [Heq | Heq]; rewrite Heq in *.
  - now apply ensure_unpopulated_fetches.
  - destruct (populated (self (after (_ensure_inputs_outputs_fetched ext) s))) eqn:H1.
    + rewrite after_ensure_populated by exact H1.
      now apply ensure_unpopulated_fetches.
    + destruct (ensure_twice_unpopulated ext s Hu H1) as [Hsame _].
      rewrite Hsame in Hp. congruence.
Qed.

Lemma access_unpopulated_fetches (a : Access) (s : Session) :
  populated (self s) = false ->
  S (events_fetches s) <= events_fetches (access ext a s).
Proof.
  intros Hu.
  destruct (access_cases a s) as [-> | ->].
  - rewrite ensure_unpopulated_fetches by exact Hu. lia.
  - destruct (populated (self (after (_ensure_inputs_outputs_fetched ext) s))) eqn:H1.
    + rewrite after_ensure_populated by exact H1.
      rewrite ensure_unpopulated_fetches by exact Hu. lia.
    + destruct (ensure_twice_unpopulated ext s Hu H1) as [_ [_ ->]]. lia.
Qed.

End AccessorLemmas.

(** ** Dictionaries under assignment *)

Section DictLemmas.
Context {K V : Type} `{PyKey K}.

Lemma key_eqb_refl (k : K) : key_eqb k k = true.
Proof. now apply key_eqb_eq. Qed.

Lemma key_eqb_neq (a b : K) : a <> b -> key_eqb a b = false.
Proof.
  intros Hne. destruct (key_eqb a b) eqn:E; [|reflexivity].
  apply key_eqb_eq in E. contradiction.
Qed.

Lemma get_setitem_same (d : list (K * V)) (k : K) (v : V) :
  Dict.get (Dict.setitem d k v) k = Some v.
Proof.
  induction d as [|[k' v'] rest IH]; cbn.
  - now rewrite key_eqb_refl.
  - destruct (key_eqb k k') eqn:E; cbn; rewrite E; [reflexivity | exact IH].
Qed.

Lemma get_setitem_other (d : list (K * V)) (k k' : K) (v : V) :
  k' <> k -> Dict.get (Dict.setitem d k v) k' = Dict.get d k'.
Proof.
  intros Hne. induction d as [|[k0 v0] rest IH]; cbn.
  - now rewrite key_eqb_neq.
  - destruct (key_eqb k k0) eqn:E; cbn.
    + apply key_eqb_eq in E. subst k0. now rewrite key_eqb_neq.
    + destruct (key_eqb k' k0); [reflexivity | exact IH].
Qed.

Lemma contains_setitem (d : list (K * V)) (k m : K) (v : V) :
  Dict.contains (Dict.setitem d k v) m = key_eqb m k || Dict.contains d m.
Proof.
  unfold Dict.contains.
  destruct (key_eqb m k) eqn:E.
  - apply key_eqb_eq in E. subst m. now rewrite get_setitem_same.
  - rewrite get_setitem_other; [reflexivity|].
    intros ->. now rewrite key_eqb_refl in E.
Qed.

Lemma keys_setitem (d : list (K * V)) (k : K) (v : V) :
  Dict.keys (Dict.setitem d k v)
  = Dict.keys d ++ (if Dict.contains d k then [] else [k]).
Proof.
  unfold Dict.contains, Dict.keys.
  induction d as [|[k' v'] rest IH]; cbn; [reflexivity|].
  destruct (key_eqb k k') eqn:E; cbn.
  - now rewrite app_nil_r.
  - now rewrite IH.
Qed.

End DictLemmas.

(** ** Names in the order of their first occurrence *)

Lemma filter_filter (A : Type) (f g : A -> bool) (l : list A) :
  filter f (filter g l) = filter (fun x => g x && f x) l.
Proof.
  induction l as [|x l IH]; cbn; [reflexivity|].
  destruct (g x); cbn; [destruct (f x)|]; now rewrite IH.
Qed.

Lemma filter_all (A : Type) (f : A -> bool) (l : list A) :
  (forall x, In x l -> f x = true) -> filter f l = l.
Proof.
  induction l as [|x l IH]; intros Hall; cbn; [reflexivity|].
  rewrite (Hall x (or_introl eq_refl)). f_equal. apply IH.
  intros y Hy. apply Hall. now right.
Qed.

Lemma first_occurrences_incl (names : list string) (n : string) :
  In n (first_occurrences names) -> In n names.
Proof.
  induction names as [|m rest IH]; cbn; [tauto|].
  intros [-> | Hin]; [now left|].
  apply filter_In in Hin. right. tauto.
Qed.

(** Names that are pairwise distinct come out as they are. *)
Lemma first_occurrences_NoDup (names : list string) :
  NoDup names -> first_occurrences names = names.
Proof.
  induction 1 as [|n rest Hnotin Hnd IH]; cbn; [reflexivity|].
  rewrite IH. f_equal. apply filter_all.
  intros m Hm. destruct (String.eqb_spec m n) as [-> | Hne]; [contradiction | reflexivity].
Qed.

(** ** The mappings along the loop *)

Section LoopLemmas.
Variable ext : Externals.
Variable tm : list (Z * string).

Lemma resolve_name (p : Event.t * Artifact.t) (entry : string * PEArtifact.t) :
  resolve ext tm p = Ok entry -> fst entry = param_name (fst p).
Proof.
  unfold resolve, param_name, getitem0.
  destruct (Dict.getitem tm (Artifact.type_id (snd p))); [|discriminate].
  destruct (Event.steps (Event.path (fst p))) as [|step0 more]; [discriminate|].
  destruct (properties_getitem ext (Artifact.properties (snd p))
              (MATERIALIZERS_PROPERTY_KEY ext)); [|discriminate].
  intros [= <-]. reflexivity.
Qed.

Lemma mapping_insert (dir : Direction) (e : Event.t)
  (entry : string * PEArtifact.t) (st : PEStep.t) :
  mapping dir (insert ext e entry st)
  = if tagged ext dir e
    then Dict.setitem (mapping dir st) (fst entry) (snd entry)
    else mapping dir st.
Proof.
  unfold insert, tagged, is_output.
  destruct dir; destruct (is_input ext e) eqn:Ei; unfold is_input in Ei; rewrite ?Ei;
    cbn [negb andb mapping]; try reflexivity;
    destruct (Event.type_ e =? OUTPUT ext)%Z; reflexivity.
Qed.

Lemma join_loop_app (l1 l2 : list (Event.t * Artifact.t)) :
  forall st,
    join_loop ext tm (l1 ++ l2) st
    = match fst (join_loop ext tm l1 st) with
      | Ok _ => join_loop ext tm l2 (snd (join_loop ext tm l1 st))
      | Raise e => (Raise e, snd (join_loop ext tm l1 st))
      end.
Proof.
  induction l1 as [|p l1 IH]; intros st; cbn [app join_loop]; [reflexivity|].
  destruct (resolve ext tm p) as [entry|e]; [apply IH | reflexivity].
Qed.

Lemma join_loop_all_resolved (pairs : list (Event.t * Artifact.t)) :
  Forall (fun p => exists entry, resolve ext tm p = Ok entry) pairs ->
  forall st, fst (join_loop ext tm pairs st) = Ok tt.
Proof.
  induction 1 as [|p rest [entry Hp] _ IH]; intros st; cbn [join_loop]; [reflexivity|].
  rewrite Hp. apply IH.
Qed.

Lemma join_loop_returns_unit (pairs : list (Event.t * Artifact.t)) :
  forall st u, fst (join_loop ext tm pairs st) = Ok u ->
               Forall (fun p => exists entry, resolve ext tm p = Ok entry) pairs.
Proof.
  induction pairs as [|p rest IH]; intros st u Hok; [constructor|].
  cbn [join_loop] in Hok.
  destruct (resolve ext tm p) as [entry|e] eqn:Hp; [|discriminate].
  constructor; [now exists entry | eapply IH, Hok].
Qed.

(** The keys of a mapping after a loop that returned: the keys it had, then
    the new names of its direction in the order of their first occurrence. *)
Lemma join_loop_keys (dir : Direction) (pairs : list (Event.t * Artifact.t)) :
  forall st,
    fst (join_loop ext tm pairs st) = Ok tt ->
    Dict.keys (mapping dir (snd (join_loop ext tm pairs st)))
    = Dict.keys (mapping dir st)
      ++ filter (fun n => negb (Dict.contains (mapping dir st) n))
           (first_occurrences
              (map param_name (filter (tagged ext dir) (map fst pairs)))).
Proof.
  induction pairs as [|p rest IH]; intros st Hok; cbn [join_loop map filter] in *.
  - cbn. now rewrite app_nil_r.
  - destruct (resolve ext tm p) as [entry|e] eqn:Hp; [|discriminate].
    rewrite (IH _ Hok), mapping_insert.
    destruct (tagged ext dir (fst p)); [|reflexivity].
    cbn [map first_occurrences filter].
    rewrite keys_setitem, (resolve_name _ Hp), filter_filter, <- app_assoc.
    f_equal.
    destruct (Dict.contains (mapping dir st) (param_name (fst p))); cbn [negb app];
      [|f_equal]; apply filter_ext; intros m; rewrite contains_setitem;
      cbn [key_eqb PyKey_string]; now rewrite negb_orb.
Qed.

(** An entry stays as it is while no later pair of its direction carries its
    name. *)
Lemma join_loop_keeps_entry (dir : Direction) (n : string) (v : PEArtifact.t)
  (pairs : list (Event.t * Artifact.t)) :
  (forall q, In q pairs -> tagged ext dir (fst q) = true -> param_name (fst q) <> n) ->
  forall st,
    Dict.get (mapping dir st) n = Some v ->
    Dict.get (mapping dir (snd (join_loop ext tm pairs st))) n = Some v.
Proof.
  induction pairs as [|p rest IH]; intros Hlater st Hget; cbn [join_loop]; [exact Hget|].
  destruct (resolve ext tm p) as [entry|e] eqn:Hp; [|exact Hget].
  apply IH; [intros q Hq; apply Hlater; now right|].
  rewrite mapping_insert.
  destruct (tagged ext dir (fst p)) eqn:Ht; [|exact Hget].
  rewrite get_setitem_other; [exact Hget|].
  rewrite (resolve_name _ Hp). intros Heq.
  apply (Hlater p (or_introl eq_refl) Ht). now symmetry.
Qed.

(** Last write wins: the entry of a name is the view of the last pair of
    that direction that carries the name. *)
Lemma join_loop_last_write (dir : Direction) (l1 l2 : list (Event.t * Artifact.t))
  (p : Event.t * Artifact.t) (st : PEStep.t) :
  fst (join_loop ext tm (l1 ++ p :: l2) st) = Ok tt ->
  tagged ext dir (fst p) = true ->
  (forall q, In q l2 -> tagged ext dir (fst q) = true ->
             param_name (fst q) <> param_name (fst p)) ->
  exists v : PEArtifact.t,
    resolve ext tm p = Ok (param_name (fst p), v)
    /\ Dict.get (mapping dir (snd (join_loop ext tm (l1 ++ p :: l2) st)))
         (param_name (fst p)) = Some v.
Proof.
  intros Hok Htag Hlater. rewrite join_loop_app in *.
  destruct (fst (join_loop ext tm l1 st)) as [u|e]; [|discriminate].
  cbn [join_loop] in *.
  destruct (resolve ext tm p) as [[n v]|e] eqn:Hp; [|discriminate].
  pose proof (resolve_name _ Hp) as Hn. cbn [fst] in Hn. subst n.
  exists v. split; [reflexivity|].
  apply join_loop_keeps_entry; [exact Hlater|].
  rewrite mapping_insert, Htag. cbn [fst snd]. apply get_setitem_same.
Qed.

End LoopLemmas.

(** ** Positional pairing *)

Lemma zip_fst_all (A B : Type) (xs : list A) :
  forall ys : list B, List.length xs <= List.length ys -> map fst (zip xs ys) = xs.
Proof.
  induction xs as [|x xs IH]; intros [|y ys] Hlen; cbn in *; try reflexivity; try lia.
  f_equal. apply IH. lia.
Qed.

Lemma zip_nth_error (A B : Type) (xs : list A) :
  forall (ys : list B) (i : nat) (x : A) (y : B),
    nth_error (zip xs ys) i = Some (x, y)
    <-> nth_error xs i = Some x /\ nth_error ys i = Some y.
Proof.
  induction xs as [|x0 xs IH]; intros [|y0 ys] [|i] x y; cbn;
    try (split; [discriminate | intros [? ?]; discriminate]).
  - split; [intros [= -> ->]; now split | intros [[= ->] [= ->]]; reflexivity].
  - apply IH.
Qed.

Lemma zip_length (A B : Type) (xs : list A) (ys : list B) :
  List.length (zip xs ys) = Nat.min (List.length xs) (List.length ys).
Proof. apply length_combine. Qed.

(** The session a fresh step view is in after its first guard. *)
Lemma ensure_new_session (ext : Externals) (id_ : Z) (name : string)
  (parameters : list (string * pyval)) (store : MetadataStore.t) :
  _ensure_inputs_outputs_fetched ext (new_session id_ name parameters store)
  = (fst (join_loop ext (type_mapping_of store) (pairs_of store id_)
            (PEStep.__init__ id_ name parameters store)),
     {| self := snd (join_loop ext (type_mapping_of store) (pairs_of store id_)
                       (PEStep.__init__ id_ name parameters store));
        log := join_calls store id_ |}).
Proof. rewrite ensure_unfold. reflexivity. Qed.

(** * The claims *)

(** C1, as amended.  Population runs on an access exactly when both mappings
    are empty at that moment.  On a fresh step view whose first access leaves
    an entry in either mapping, any sequence of further accesses changes
    nothing and the event-fetch method has been invoked exactly once; an
    access to a populated step view makes no call at all; an access that
    finds both mappings empty fetches the events (again). *)
Theorem lazy_population_guarded (ext : Externals) (id_ : Z) (name : string)
  (parameters : list (string * pyval)) (store : MetadataStore.t)
  (a : Access) (rest : list Access) :
  populated (self (access ext a (new_session id_ name parameters store))) = true ->
  events_fetches (accesses ext (a :: rest) (new_session id_ name parameters store)) = 1
  /\ accesses ext (a :: rest) (new_session id_ name parameters store)
     = access ext a (new_session id_ name parameters store)
  /\ (forall s : Session,
        populated (self s) = true ->
        _ensure_inputs_outputs_fetched ext s = (Ok tt, s))
  /\ (forall (s : Session) (b : Access),
        populated (self s) = false ->
        S (events_fetches s) <= events_fetches (access ext b s)).
Proof.
  intros Hp.
  assert (Hrest : accesses ext (a :: rest) (new_session id_ name parameters store)
                  = access ext a (new_session id_ name parameters store)).
  { cbn [accesses fold_left]. apply (accesses_populated ext rest), Hp. }
  split; [|split; [exact Hrest|split]].
  - rewrite Hrest.
    rewrite access_unpopulated_then_populated; [reflexivity|reflexivity|exact Hp].
  - intros s Hs. now apply ensure_populated.
  - intros s b Hs. now apply access_unpopulated_fetches.
Qed.

(** C1 at a step with one input and one output: three accesses, one fetch. *)
Lemma lazy_population_guarded_witness :
  populated (self (access sample_ext Access_inputs (new_session 1 "trainer" [] round_trip_store)))
  = true
  /\ events_fetches
       (accesses sample_ext [Access_inputs; Access_get_output "nope"; Access_outputs]
          (new_session 1 "trainer" [] round_trip_store)) = 1.
Proof.
  split; [reflexivity|].
  apply (@lazy_population_guarded sample_ext 1 "trainer" [] round_trip_store
           Access_inputs [Access_get_output "nope"; Access_outputs]).
  reflexivity.
Defined.

(** C1 as stated fails: a step the store records no events for is joined
    again on every access, so [inputs] then [outputs] fetch the events
    twice. *)
Lemma lazy_population_exactly_once_counterexample :
  events_fetches
    (accesses sample_ext [Access_inputs; Access_outputs] (sample_session no_events_store))
  = 2
  /\ events_fetches
       (accesses sample_ext [Access_inputs; Access_outputs] (sample_session no_events_store))
     <> 1.
Proof. split; [reflexivity | discriminate]. Qed.

(** C2.  When the store returns an execution record for the step, [status]
    returns without raising, after one more query of the store on each
    access (nothing is cached): [Completed] for the codes COMPLETE and
    CACHED, [Running] for RUNNING, and [Failed] for every other code, a
    field that was never set reading as the default code of the enum. *)
Theorem status_maps_every_state_code (ext : Externals) (s : Session)
  (proto : Execution.t) (others : list Execution.t) :
  MetadataStore.get_executions_by_id (PEStep._metadata_store (self s))
    [PEStep._id (self s)] = proto :: others ->
  RUNNING ext <> COMPLETE ext ->
  RUNNING ext <> CACHED ext ->
  exists result_status : ExecutionStatus,
    status ext s
    = (Ok result_status,
       {| self := self s;
          log := log s ++ [Call_get_executions_by_id [PEStep._id (self s)]] |})
    /\ executions_fetches (after (status ext) s) = S (executions_fetches s)
    /\ (Execution.last_known_state proto = COMPLETE ext
        \/ Execution.last_known_state proto = CACHED ext ->
        result_status = Completed)
    /\ (Execution.last_known_state proto = RUNNING ext -> result_status = Running)
    /\ (Execution.last_known_state proto <> COMPLETE ext ->
        Execution.last_known_state proto <> CACHED ext ->
        Execution.last_known_state proto <> RUNNING ext ->
        result_status = Failed).
Proof.
  intros Hstore Hrc Hrk.
  assert (Hmain : exists result_status : ExecutionStatus,
             status ext s
             = (Ok result_status,
                {| self := self s;
                   log := log s ++ [Call_get_executions_by_id [PEStep._id (self s)]] |})
             /\ (Execution.last_known_state proto = COMPLETE ext
                 \/ Execution.last_known_state proto = CACHED ext ->
                 result_status = Completed)
             /\ (Execution.last_known_state proto = RUNNING ext ->
                 result_status = Running)
             /\ (Execution.last_known_state proto <> COMPLETE ext ->
                 Execution.last_known_state proto <> CACHED ext ->
                 Execution.last_known_state proto <> RUNNING ext ->
                 result_status = Failed)).
  { unfold status, bind, gets, store_call, lift. cbn [self log].
    rewrite Hstore. cbn [getitem0].
    destruct (Z.eqb_spec (Execution.last_known_state proto) (COMPLETE ext)) as [Hc|Hc];
      cbn [orb].
    - exists Completed. repeat split; try reflexivity; intros; congruence.
    - destruct (Z.eqb_spec (Execution.last_known_state proto) (CACHED ext)) as [Hk|Hk].
      + exists Completed. repeat split; try reflexivity; intros; congruence.
      + destruct (Z.eqb_spec (Execution.last_known_state proto) (RUNNING ext)) as [Hr|Hr].
        * exists Running. repeat split; try reflexivity; intros; try congruence.
          tauto.
        * exists Failed. repeat split; try reflexivity; intros; try congruence.
          tauto. }
  destruct Hmain as [result_status [Hrun Hcodes]].
  exists result_status. split; [exact Hrun|]. split; [|exact Hcodes].
  unfold after. rewrite Hrun. unfold executions_fetches. cbn [snd log].
  rewrite filter_app, length_app. cbn. lia.
Qed.

(** C2 at the sample store, whose one execution is in state COMPLETE. *)
Lemma status_maps_every_state_code_witness :
  exists result_status : ExecutionStatus,
    status sample_ext (sample_session round_trip_store)
    = (Ok result_status,
       {| self := self (sample_session round_trip_store);
          log := [Call_get_executions_by_id [1%Z]] |})
    /\ result_status = Completed.
Proof.
  destruct (@status_maps_every_state_code sample_ext (sample_session round_trip_store)
              {| Execution.id := 1; Execution.last_known_state := 3 |} [])
    as [st [Hrun [_ [Hdone _]]]];
    [reflexivity | discriminate | discriminate |].
  exists st. split; [exact Hrun | apply Hdone; left; reflexivity].
Defined.

(** C10.  When the store returns no execution record for the step's id,
    [status] raises the [IndexError] of the indexing [[0]] instead of
    returning [Failed]. *)
Theorem status_raises_without_execution_record (ext : Externals) (s : Session) :
  MetadataStore.get_executions_by_id (PEStep._metadata_store (self s))
    [PEStep._id (self s)] = [] ->
  status ext s
  = (Raise (IndexError "list index out of range"),
     {| self := self s;
        log := log s ++ [Call_get_executions_by_id [PEStep._id (self s)]] |})
  /\ is_LookupError (IndexError "list index out of range") = true
  /\ fst (status ext s) <> Ok Failed.
Proof.
  intros Hstore.
  assert (Hrun : status ext s
                 = (Raise (IndexError "list index out of range"),
                    {| self := self s;
                       log := log s ++ [Call_get_executions_by_id [PEStep._id (self s)]] |})).
  { unfold status, bind, gets, store_call, lift. cbn [self log].
    rewrite Hstore. reflexivity. }
  split; [exact Hrun|]. split; [reflexivity|].
  rewrite Hrun. discriminate.
Qed.

(** C10 at a store that records nothing. *)
Lemma status_raises_without_execution_record_witness :
  MetadataStore.get_executions_by_id (table_store [] [] [] []) [7%Z] = []
  /\ fst (status sample_ext (new_session 7 "trainer" [] (table_store [] [] [] [])))
     = Raise (IndexError "list index out of range").
Proof.
  split; [reflexivity|].
  destruct (@status_raises_without_execution_record sample_ext
              (new_session 7 "trainer" [] (table_store [] [] [] [])))
    as [Hrun _]; [reflexivity|].
  rewrite Hrun. reflexivity.
Defined.




(** C6, as amended.  When the lazy population returns, which it does on
    every step view that already holds an entry, [get_input] and
    [get_output] return the view mapped to a name that is present, and for an
    absent name raise a [KeyError] whose message reads: no input (output)
    artifact found for the requested name, this step only has inputs
    (outputs) with the following names, and then the names of that mapping,
    all of them and in its order.  When the lazy population raises,
    [get_input] and [get_output] raise its exception, whatever the name. *)
Theorem get_by_name_found_or_KeyError (ext : Externals) (s : Session)
  (name : string) :
  (forall s1 : Session,
      _ensure_inputs_outputs_fetched ext s = (Ok tt, s1) ->
      (forall v : PEArtifact.t,
          Dict.get (PEStep._inputs (self s1)) name = Some v ->
          get_input ext name s = (Ok v, s1))
      /\ (Dict.get (PEStep._inputs (self s1)) name = None ->
          exists s2 : Session,
            self s2 = self s1
            /\ get_input ext name s
               = (Raise (KeyError (PyStr
                    ("No input artifact found for name `" ++ name
                     ++ "`. This step only has inputs with the following names: `"
                     ++ format_names ext (Dict.keys (PEStep._inputs (self s1)))
                     ++ "`"))),
                  s2))
      /\ (forall v : PEArtifact.t,
             Dict.get (PEStep._outputs (self s1)) name = Some v ->
             get_output ext name s = (Ok v, s1))
      /\ (Dict.get (PEStep._outputs (self s1)) name = None ->
          exists s2 : Session,
            self s2 = self s1
            /\ get_output ext name s
               = (Raise (KeyError (PyStr
                    ("No output artifact found for name `" ++ name
                     ++ "`. This step only has outputs with the following names: `"
                     ++ format_names ext (Dict.keys (PEStep._outputs (self s1)))
                     ++ "`"))),
                  s2)))
  /\ (forall (e : exn) (s1 : Session),
         _ensure_inputs_outputs_fetched ext s = (Raise e, s1) ->
         get_input ext name s = (Raise e, s1)
         /\ get_output ext name s = (Raise e, s1))
  /\ (populated (self s) = true ->
      _ensure_inputs_outputs_fetched ext s = (Ok tt, s)).
Proof.
  split; [|split].
  - intros s1 Hens.
    assert (Hsecond : exists s2, _ensure_inputs_outputs_fetched ext s1 = (Ok tt, s2)
                                 /\ self s2 = self s1).
    { destruct (populated (self s1)) eqn:Hp1.
      - exists s1. split; [now apply ensure_populated | reflexivity].
      - destruct (populated (self s)) eqn:Hp0.
        + rewrite ensure_populated in Hens by exact Hp0.
          injection Hens as <-. congruence.
        + assert (Hs1 : after (_ensure_inputs_outputs_fetched ext) s = s1)
            by (unfold after; now rewrite Hens).
          pose proof (ensure_twice_unpopulated ext s Hp0) as Htwice.
          rewrite Hs1 in Htwice. destruct (Htwice Hp1) as [Hself [Hfst _]].
          rewrite Hens in Hfst. cbn [fst] in Hfst.
          unfold after in Hself.
          destruct (_ensure_inputs_outputs_fetched ext s1) as [r s2].
          cbn [fst snd] in *. subst r. exists s2. now split. }
    destruct Hsecond as [s2 [Hens2 Hself2]].
    repeat split.
    + intros v Hv. rewrite get_input_unfold, Hens, Hv. reflexivity.
    + intros Hnone. exists s2. split; [exact Hself2|].
      rewrite get_input_unfold, Hens, Hnone, Hens2, Hself2. reflexivity.
    + intros v Hv. rewrite get_output_unfold, Hens, Hv. reflexivity.
    + intros Hnone. exists s2. split; [exact Hself2|].
      rewrite get_output_unfold, Hens, Hnone, Hens2, Hself2. reflexivity.
  - intros e s1 Hens. now rewrite get_input_unfold, get_output_unfold, Hens.
  - apply ensure_populated.
Qed.

(** C6 at the sample step: "data" is an input, "model" is not. *)
Lemma get_by_name_found_or_KeyError_witness :
  fst (get_input sample_ext "data" (sample_session round_trip_store))
  = Ok {| PEArtifact._id := 10; PEArtifact._type := "Dataset";
          PEArtifact._uri := "/a/10";
          PEArtifact._materializer := "builtin.BuiltInMaterializer" |}
  /\ fst (get_input sample_ext "model" (sample_session round_trip_store))
     = Raise (KeyError (PyStr
         "No input artifact found for name `model`. This step only has inputs with the following names: `['data']`"))
  /\ fst (get_output sample_ext "data" (sample_session round_trip_store))
     = Raise (KeyError (PyStr
         "No output artifact found for name `data`. This step only has outputs with the following names: `['model']`")).
Proof.
  destruct (@get_by_name_found_or_KeyError sample_ext
              (sample_session round_trip_store) "data") as [Hdata _].
  destruct (Hdata (after (_ensure_inputs_outputs_fetched sample_ext)
                     (sample_session round_trip_store)) eq_refl)
    as [Hfound [_ [_ Hnot_output]]].
  destruct (@get_by_name_found_or_KeyError sample_ext
              (sample_session round_trip_store) "model") as [Hmodel _].
  destruct (Hmodel (after (_ensure_inputs_outputs_fetched sample_ext)
                      (sample_session round_trip_store)) eq_refl)
    as [_ [Hmissing _]].
  split; [|split].
  - rewrite (Hfound _ eq_refl). reflexivity.
  - destruct (Hmissing eq_refl) as [s2 [_ Hraise]]. rewrite Hraise. reflexivity.
  - destruct (Hnot_output eq_refl) as [s2 [_ Hraise]]. rewrite Hraise. reflexivity.
Defined.

(** C6 as stated fails: on a step view whose lazy population raises, a name
    that is in no mapping does not get the [KeyError] that carries the name
    and the valid names, it gets the exception of the join, here the
    [KeyError] of the unknown type id 99. *)
Lemma get_by_name_join_error_counterexample :
  Dict.get
    (PEStep._inputs
       (self (after (get_input sample_ext "x") (sample_session unresolvable_store))))
    "x" = None
  /\ fst (get_input sample_ext "x" (sample_session unresolvable_store))
     = Raise (KeyError (PyInt 99))
  /\ fst (get_input sample_ext "x" (sample_session unresolvable_store))
     <> Raise (KeyError (PyStr
          "No input artifact found for name `x`. This step only has inputs with the following names: `[]`")).
Proof. split; [reflexivity | split; [reflexivity | discriminate]]. Qed.

(** C3.  After a join that returned, the names of the inputs mapping are the
    parameter names of the paired INPUT events in the order in which the
    store returned them, each name standing where it first occurs, and
    likewise for the outputs mapping and the OUTPUT events; every event is
    paired when the store returns an artifact for each; and the entry of a
    name is the view built from the last event of that direction carrying
    the name. *)
Theorem mappings_follow_store_order (ext : Externals) (id_ : Z) (name : string)
  (parameters : list (string * pyval)) (store : MetadataStore.t) (s1 : Session) :
  _ensure_inputs_outputs_fetched ext (new_session id_ name parameters store)
  = (Ok tt, s1) ->
  Dict.keys (PEStep._inputs (self s1))
  = first_occurrences
      (map param_name (filter (is_input ext) (map fst (pairs_of store id_))))
  /\ Dict.keys (PEStep._outputs (self s1))
     = first_occurrences
         (map param_name (filter (is_output ext) (map fst (pairs_of store id_))))
  /\ (List.length (events_of store id_) <= List.length (artifacts_of store id_) ->
      map fst (pairs_of store id_) = events_of store id_)
  /\ (forall names : list string,
         names = map param_name (filter (is_input ext) (map fst (pairs_of store id_))) ->
         NoDup names -> Dict.keys (PEStep._inputs (self s1)) = names)
  /\ (forall names : list string,
         names = map param_name (filter (is_output ext) (map fst (pairs_of store id_))) ->
         NoDup names -> Dict.keys (PEStep._outputs (self s1)) = names)
  /\ (forall (l1 l2 : list (Event.t * Artifact.t)) (e : Event.t) (a : Artifact.t),
         pairs_of store id_ = l1 ++ (e, a) :: l2 ->
         is_input ext e = true ->
         (forall q, In q l2 -> is_input ext (fst q) = true ->
                    param_name (fst q) <> param_name e) ->
         exists v : PEArtifact.t,
           resolve ext (type_mapping_of store) (e, a) = Ok (param_name e, v)
           /\ Dict.get (PEStep._inputs (self s1)) (param_name e) = Some v)
  /\ (forall (l1 l2 : list (Event.t * Artifact.t)) (e : Event.t) (a : Artifact.t),
         pairs_of store id_ = l1 ++ (e, a) :: l2 ->
         is_output ext e = true ->
         (forall q, In q l2 -> is_output ext (fst q) = true ->
                    param_name (fst q) <> param_name e) ->
         exists v : PEArtifact.t,
           resolve ext (type_mapping_of store) (e, a) = Ok (param_name e, v)
           /\ Dict.get (PEStep._outputs (self s1)) (param_name e) = Some v).
Proof.
  rewrite ensure_new_session. intros [= Hok <-]. cbn [self].
  assert (Hkeys : forall dir,
             Dict.keys (mapping dir (snd (join_loop ext (type_mapping_of store)
                                            (pairs_of store id_)
                                            (PEStep.__init__ id_ name parameters store))))
             = first_occurrences
                 (map param_name (filter (tagged ext dir) (map fst (pairs_of store id_))))).
  { intros dir. rewrite (join_loop_keys _ _ dir _ _ Hok).
    destruct dir; cbn; apply filter_all; reflexivity. }
  assert (Hlast : forall dir (l1 l2 : list (Event.t * Artifact.t)) e a,
             pairs_of store id_ = l1 ++ (e, a) :: l2 ->
             tagged ext dir e = true ->
             (forall q, In q l2 -> tagged ext dir (fst q) = true ->
                        param_name (fst q) <> param_name e) ->
             exists v : PEArtifact.t,
               resolve ext (type_mapping_of store) (e, a) = Ok (param_name e, v)
               /\ Dict.get (mapping dir (snd (join_loop ext (type_mapping_of store)
                                                (pairs_of store id_)
                                                (PEStep.__init__ id_ name parameters store))))
                    (param_name e) = Some v).
  { intros dir l1 l2 e a Hsplit Htag Hlater. rewrite Hsplit in *.
    apply (join_loop_last_write _ _ dir l1 l2 (e, a) _ Hok Htag Hlater). }
  split; [exact (Hkeys Dir_input)|].
  split; [exact (Hkeys Dir_output)|].
  split; [apply zip_fst_all|].
  split; [intros names -> Hnd; etransitivity;
          [exact (Hkeys Dir_input) | now apply first_occurrences_NoDup]|].
  split; [intros names -> Hnd; etransitivity;
          [exact (Hkeys Dir_output) | now apply first_occurrences_NoDup]|].
  split; [exact (Hlast Dir_input) | exact (Hlast Dir_output)].
Qed.

(** C3 at a store that returns the input events "a", "b", "a": the names
    are "a", "b", and "a" maps to the view of the third event. *)
Lemma mappings_follow_store_order_witness :
  Dict.keys (PEStep._inputs
               (self (after (_ensure_inputs_outputs_fetched sample_ext)
                        (new_session 1 "trainer" [] duplicate_store))))
  = ["a"; "b"]
  /\ exists v : PEArtifact.t,
       PEArtifact._id v = 12%Z
       /\ Dict.get (PEStep._inputs
                      (self (after (_ensure_inputs_outputs_fetched sample_ext)
                               (new_session 1 "trainer" [] duplicate_store))))
            "a" = Some v.
Proof.
  destruct (@mappings_follow_store_order sample_ext 1 "trainer" [] duplicate_store
              (after (_ensure_inputs_outputs_fetched sample_ext)
                 (new_session 1 "trainer" [] duplicate_store)) eq_refl)
    as [Hin [_ [_ [_ [_ [Hlast _]]]]]].
  split; [rewrite Hin; reflexivity|].
  destruct (Hlast
              [(mk_event 1 10 3 "a",
                mk_artifact 10 1 "/a/10" "builtin.BuiltInMaterializer");
               (mk_event 1 11 3 "b",
                mk_artifact 11 1 "/a/11" "builtin.BuiltInMaterializer")]
              []
              (mk_event 1 12 3 "a")
              (mk_artifact 12 2 "/a/12" "builtin.BuiltInMaterializer")
              eq_refl eq_refl)
    as [v [Hv Hget]].
  - intros q [].
  - exists v. split; [|exact Hget].
    cbn in Hv. injection Hv as <-. reflexivity.
Defined.

(** C4.  The round trip: one execution in state COMPLETE, an INPUT event
    "data" for artifact 10 and an OUTPUT event "model" for artifact 20, the
    two artifact records and the type dictionary 1 -> "Dataset",
    2 -> "Model".  The step view reports [Completed], its inputs mapping is
    the one entry "data" with the view of artifact 10, its outputs mapping
    the one entry "model" with the view of artifact 20, and the accessors
    return these views. *)
Theorem round_trip_scenario (ext : Externals) (store : MetadataStore.t)
  (name : string) (parameters : list (string * pyval))
  (props10 props20 : list (string * Value.t)) (m10 m20 : string) :
  INPUT ext <> OUTPUT ext ->
  MetadataStore.get_executions_by_id store [1%Z]
  = [ {| Execution.id := 1; Execution.last_known_state := COMPLETE ext |} ] ->
  MetadataStore.get_artifact_types store = sample_types ->
  MetadataStore.get_events_by_execution_ids store [1%Z]
  = [ mk_event 1 10 (INPUT ext) "data"; mk_event 1 20 (OUTPUT ext) "model" ] ->
  MetadataStore.get_artifacts_by_id store [10%Z; 20%Z]
  = [ {| Artifact.id := 10; Artifact.type_id := 1; Artifact.uri := "/a/10";
         Artifact.properties := props10 |};
      {| Artifact.id := 20; Artifact.type_id := 2; Artifact.uri := "/a/20";
         Artifact.properties := props20 |} ] ->
  properties_getitem ext props10 (MATERIALIZERS_PROPERTY_KEY ext)
  = Ok {| Value.string_value := m10 |} ->
  properties_getitem ext props20 (MATERIALIZERS_PROPERTY_KEY ext)
  = Ok {| Value.string_value := m20 |} ->
  let view10 := {| PEArtifact._id := 10; PEArtifact._type := "Dataset";
                   PEArtifact._uri := "/a/10"; PEArtifact._materializer := m10 |} in
  let view20 := {| PEArtifact._id := 20; PEArtifact._type := "Model";
                   PEArtifact._uri := "/a/20"; PEArtifact._materializer := m20 |} in
  fst (status ext (new_session 1 name parameters store)) = Ok Completed
  /\ (exists s1 : Session,
         _ensure_inputs_outputs_fetched ext (new_session 1 name parameters store)
         = (Ok tt, s1)
         /\ PEStep._inputs (self s1) = [("data", view10)]
         /\ PEStep._outputs (self s1) = [("model", view20)])
  /\ fst (inputs ext (new_session 1 name parameters store)) = Ok [view10]
  /\ fst (outputs ext (new_session 1 name parameters store)) = Ok [view20]
  /\ fst (get_input ext "data" (new_session 1 name parameters store)) = Ok view10
  /\ fst (get_output ext "model" (new_session 1 name parameters store)) = Ok view20.
Proof.
  intros Hio Hexec Htypes Hevents Hartifacts Hm10 Hm20 view10 view20.
  assert (Hoi : (OUTPUT ext =? INPUT ext)%Z = false)
    by (apply Z.eqb_neq; congruence).
  assert (Hens : _ensure_inputs_outputs_fetched ext (new_session 1 name parameters store)
                 = (Ok tt,
                    {| self := PEStep.with_outputs
                                 (PEStep.with_inputs
                                    (PEStep.__init__ 1 name parameters store)
                                    [("data", view10)])
                                 [("model", view20)];
                       log := join_calls store 1 |})).
  { assert (R1 : resolve ext (type_mapping_of store)
                   (mk_event 1 10 (INPUT ext) "data",
                    {| Artifact.id := 10; Artifact.type_id := 1; Artifact.uri := "/a/10";
                       Artifact.properties := props10 |})
                 = Ok ("data", view10)).
    { unfold resolve, type_mapping_of. rewrite Htypes. cbn. now rewrite Hm10. }
    assert (R2 : resolve ext (type_mapping_of store)
                   (mk_event 1 20 (OUTPUT ext) "model",
                    {| Artifact.id := 20; Artifact.type_id := 2; Artifact.uri := "/a/20";
                       Artifact.properties := props20 |})
                 = Ok ("model", view20)).
    { unfold resolve, type_mapping_of. rewrite Htypes. cbn. now rewrite Hm20. }
    rewrite ensure_new_session.
    unfold pairs_of, artifacts_of, events_of.
    rewrite Hevents.
    change (map Event.artifact_id
              [mk_event 1 10 (INPUT ext) "data"; mk_event 1 20 (OUTPUT ext) "model"])
      with [10%Z; 20%Z].
    rewrite Hartifacts. cbn [zip combine join_loop].
    rewrite R1. cbn [fst snd]. rewrite R2.
    unfold insert, is_input, is_output, mk_event. cbn [Event.type_ fst snd].
    rewrite Hoi, !Z.eqb_refl. reflexivity. }
  split; [|split; [|split; [|split; [|split]]]].
  - unfold status, bind, gets, store_call, lift. cbn [self log new_session PEStep.__init__
                                                       PEStep._id PEStep._metadata_store].
    rewrite Hexec. cbn [getitem0 Execution.last_known_state].
    now rewrite Z.eqb_refl.
  - eexists. split; [exact Hens|]. split; reflexivity.
  - unfold inputs, bind, gets. now rewrite Hens.
  - unfold outputs, bind, gets. now rewrite Hens.
  - rewrite get_input_unfold, Hens. reflexivity.
  - rewrite get_output_unfold, Hens. reflexivity.
Qed.

(** C4 at the sample store and the sample enum values. *)
Lemma round_trip_scenario_witness :
  fst (status sample_ext (new_session 1 "trainer" [] round_trip_store)) = Ok Completed
  /\ fst (inputs sample_ext (new_session 1 "trainer" [] round_trip_store))
     = Ok [ {| PEArtifact._id := 10; PEArtifact._type := "Dataset";
               PEArtifact._uri := "/a/10";
               PEArtifact._materializer := "builtin.BuiltInMaterializer" |} ]
  /\ fst (outputs sample_ext (new_session 1 "trainer" [] round_trip_store))
     = Ok [ {| PEArtifact._id := 20; PEArtifact._type := "Model";
               PEArtifact._uri := "/a/20";
               PEArtifact._materializer := "builtin.BuiltInMaterializer" |} ].
Proof.
  destruct (@round_trip_scenario sample_ext round_trip_store "trainer" []
              [("materializers", {| Value.string_value := "builtin.BuiltInMaterializer" |})]
              [("materializers", {| Value.string_value := "builtin.BuiltInMaterializer" |})]
              "builtin.BuiltInMaterializer" "builtin.BuiltInMaterializer")
    as [Hstatus [_ [Hin [Hout _]]]];
    try reflexivity; try discriminate.
  split; [exact Hstatus | split; [exact Hin | exact Hout]].
Defined.

(** The join stops at the first pair that does not resolve.  When the pairs
    before a pair resolve and that pair does not, the guard raises the
    pair's error, which the accessors pass on, and no later pair is looked
    at; the mappings hold the entries of the pairs before the failing one,
    named as in a join of those pairs alone, and a step view that holds such
    an entry counts as populated for every later access. *)
Theorem join_aborts_at_first_failure (ext : Externals) (id_ : Z) (name : string)
  (parameters : list (string * pyval)) (store : MetadataStore.t)
  (before after_ : list (Event.t * Artifact.t)) (p : Event.t * Artifact.t)
  (e : exn) :
  pairs_of store id_ = before ++ p :: after_ ->
  Forall (fun q => exists entry, resolve ext (type_mapping_of store) q = Ok entry)
    before ->
  resolve ext (type_mapping_of store) p = Raise e ->
  exists partial : PEStep.t,
    partial = snd (join_loop ext (type_mapping_of store) before
                     (PEStep.__init__ id_ name parameters store))
    /\ _ensure_inputs_outputs_fetched ext (new_session id_ name parameters store)
       = (Raise e, {| self := partial; log := join_calls store id_ |})
    /\ inputs ext (new_session id_ name parameters store)
       = (Raise e, {| self := partial; log := join_calls store id_ |})
    /\ outputs ext (new_session id_ name parameters store)
       = (Raise e, {| self := partial; log := join_calls store id_ |})
    /\ Dict.keys (PEStep._inputs partial)
       = first_occurrences (map param_name (filter (is_input ext) (map fst before)))
    /\ Dict.keys (PEStep._outputs partial)
       = first_occurrences (map param_name (filter (is_output ext) (map fst before)))
    /\ (populated partial = true ->
        forall l : list Access,
          accesses ext l {| self := partial; log := join_calls store id_ |}
          = {| self := partial; log := join_calls store id_ |}).
Proof.
  intros Hsplit Hbefore Hp.
  pose proof (@join_loop_all_resolved ext (type_mapping_of store) before Hbefore
                (PEStep.__init__ id_ name parameters store)) as Hok.
  assert (Hens : _ensure_inputs_outputs_fetched ext (new_session id_ name parameters store)
                 = (Raise e,
                    {| self := snd (join_loop ext (type_mapping_of store) before
                                      (PEStep.__init__ id_ name parameters store));
                       log := join_calls store id_ |})).
  { rewrite ensure_new_session, Hsplit, join_loop_app, Hok.
    cbn [join_loop]. rewrite Hp. reflexivity. }
  eexists. split; [reflexivity|].
  split; [exact Hens|].
  split; [unfold inputs, bind; now rewrite Hens|].
  split; [unfold outputs, bind; now rewrite Hens|].
  split; [|split].
  - etransitivity; [exact (join_loop_keys _ _ Dir_input _ _ Hok)|].
    cbn. apply filter_all; reflexivity.
  - etransitivity; [exact (join_loop_keys _ _ Dir_output _ _ Hok)|].
    cbn. apply filter_all; reflexivity.
  - intros Hpop l. now apply accesses_populated.
Qed.

(** At the store whose second artifact has an unknown type: the error is
    the [KeyError] of the type dictionary and the input "a" stays. *)
Lemma join_aborts_at_first_failure_witness :
  exists partial : PEStep.t,
    inputs sample_ext (new_session 1 "trainer" [] unknown_type_store)
    = (Raise (KeyError (PyInt 99)),
       {| self := partial; log := join_calls unknown_type_store 1 |})
    /\ Dict.keys (PEStep._inputs partial) = ["a"].
Proof.
  destruct (@join_aborts_at_first_failure sample_ext 1 "trainer" [] unknown_type_store
              [(mk_event 1 10 3 "a",
                mk_artifact 10 1 "/a/10" "builtin.BuiltInMaterializer")]
              []
              (mk_event 1 11 3 "b",
               mk_artifact 11 99 "/a/11" "builtin.BuiltInMaterializer")
              (KeyError (PyInt 99)) eq_refl)
    as [partial [_ [_ [Hin [_ [Hkeys _]]]]]].
  - constructor; [|constructor]. eexists. reflexivity.
  - reflexivity.
  - exists partial. split; [exact Hin | exact Hkeys].
Defined.

(** C7.  The code at a step with the recorded inputs "a" and "b", the
    artifact of "b" having a type the type dictionary does not know.  The
    first access raises the [KeyError] of the join, but the inputs mapping
    is not left as it was: it holds the entry of "a".  The guard then takes
    this partial mapping for a finished fetch: a second access to [inputs]
    returns the one view without an error and without a new fetch of the
    events, and [get_input] of "b" answers that the step only has the input
    "a". *)
Theorem failed_join_is_taken_for_fetched :
  fst (inputs sample_ext (sample_session unknown_type_store))
  = Raise (KeyError (PyInt 99))
  /\ PEStep._inputs (self (after (inputs sample_ext) (sample_session unknown_type_store)))
     = [("a", {| PEArtifact._id := 10; PEArtifact._type := "Dataset";
                 PEArtifact._uri := "/a/10";
                 PEArtifact._materializer := "builtin.BuiltInMaterializer" |})]
  /\ PEStep._inputs (self (after (inputs sample_ext) (sample_session unknown_type_store)))
     <> PEStep._inputs (self (sample_session unknown_type_store))
  /\ fst (inputs sample_ext
            (after (inputs sample_ext) (sample_session unknown_type_store)))
     = Ok [ {| PEArtifact._id := 10; PEArtifact._type := "Dataset";
               PEArtifact._uri := "/a/10";
               PEArtifact._materializer := "builtin.BuiltInMaterializer" |} ]
  /\ events_fetches
       (accesses sample_ext [Access_inputs; Access_inputs; Access_get_input "b"]
          (sample_session unknown_type_store))
     = 1
  /\ fst (get_input sample_ext "b"
            (after (inputs sample_ext) (sample_session unknown_type_store)))
     = Raise (KeyError (PyStr
         "No input artifact found for name `b`. This step only has inputs with the following names: `['a']`"))
  /\ map param_name (events_of unknown_type_store 1) = ["a"; "b"].
Proof.
  split; [reflexivity|]. split; [reflexivity|]. split; [discriminate|].
  repeat split; reflexivity.
Qed.

(** C9.  The join pairs the events and the artifact records by position:
    the i-th pair is the i-th event with the i-th artifact record, there are
    as many pairs as the shorter list has elements, the guard of a fresh step
    view runs the loop over exactly these pairs, and when each of them
    resolves the guard returns, whatever the two lengths are. *)
Theorem join_pairs_by_position (ext : Externals) (id_ : Z) (name : string)
  (parameters : list (string * pyval)) (store : MetadataStore.t) :
  (forall (i : nat) (e : Event.t) (a : Artifact.t),
      nth_error (pairs_of store id_) i = Some (e, a)
      <-> nth_error (events_of store id_) i = Some e
          /\ nth_error (artifacts_of store id_) i = Some a)
  /\ List.length (pairs_of store id_)
     = Nat.min (List.length (events_of store id_)) (List.length (artifacts_of store id_))
  /\ _ensure_inputs_outputs_fetched ext (new_session id_ name parameters store)
     = (fst (join_loop ext (type_mapping_of store) (pairs_of store id_)
               (PEStep.__init__ id_ name parameters store)),
        {| self := snd (join_loop ext (type_mapping_of store) (pairs_of store id_)
                          (PEStep.__init__ id_ name parameters store));
           log := join_calls store id_ |})
  /\ (Forall (fun q => exists entry, resolve ext (type_mapping_of store) q = Ok entry)
        (pairs_of store id_) ->
      fst (_ensure_inputs_outputs_fetched ext (new_session id_ name parameters store))
      = Ok tt).
Proof.
  split; [|split; [|split]].
  - intros i e a. apply zip_nth_error.
  - apply zip_length.
  - apply ensure_new_session.
  - intros Hall. rewrite ensure_new_session. cbn [fst].
    now apply join_loop_all_resolved.
Qed.

(** C9 at a store that returns three events and two artifact records: the
    guard returns, and the third event, an output "c", is in no mapping. *)
Lemma join_pairs_by_position_witness :
  List.length (events_of short_store 1) = 3
  /\ List.length (artifacts_of short_store 1) = 2
  /\ fst (_ensure_inputs_outputs_fetched sample_ext (new_session 1 "trainer" [] short_store))
     = Ok tt
  /\ fst (get_input_names sample_ext (new_session 1 "trainer" [] short_store))
     = Ok ["a"; "b"]
  /\ fst (get_output_names sample_ext (new_session 1 "trainer" [] short_store))
     = Ok [].
Proof.
  destruct (@join_pairs_by_position sample_ext 1 "trainer" [] short_store)
    as [_ [_ [_ Hreturns]]].
  split; [reflexivity|]. split; [reflexivity|].
  split; [|split; reflexivity].
  apply Hreturns. repeat constructor; eexists; reflexivity.
Defined.

(** C8.  The step is declared with the inputs "a", "b" and the store
    returns the event of "b" first: the names of the inputs come out as
    "b", "a", which is the order of the store and not the declared one. *)
Theorem inputs_in_store_order_not_declared_order :
  fst (get_input_names sample_ext (sample_session swapped_store)) = Ok ["b"; "a"]
  /\ fst (inputs sample_ext (sample_session swapped_store))
     = Ok [ {| PEArtifact._id := 11; PEArtifact._type := "Dataset";
               PEArtifact._uri := "/a/11";
               PEArtifact._materializer := "builtin.BuiltInMaterializer" |};
            {| PEArtifact._id := 10; PEArtifact._type := "Dataset";
               PEArtifact._uri := "/a/10";
               PEArtifact._materializer := "builtin.BuiltInMaterializer" |} ]
  /\ fst (get_input_names sample_ext (sample_session swapped_store))
     <> Ok declared_inputs.
Proof. split; [reflexivity | split; [reflexivity | discriminate]]. Qed.

(** * Further properties of the two views *)

(** ** What every access preserves *)

Section ReachableLemmas.
Variable ext : Externals.

(** The step view after the guard: as it was, or joined from empty
    mappings. *)
Lemma self_after_ensure (s : Session) :
  self (after (_ensure_inputs_outputs_fetched ext) s)
  = if populated (self s) then self s
    else snd (join_loop ext (type_mapping_of (PEStep._metadata_store (self s)))
                (pairs_of (PEStep._metadata_store (self s)) (PEStep._id (self s)))
                (self s)).
Proof.
  unfold after. rewrite ensure_unfold.
  destruct (populated (self s)); reflexivity.
Qed.

(** A property of step views that the join keeps is kept by every access. *)
Lemma access_invariant (P : PEStep.t -> Prop) :
  (forall st : PEStep.t,
      P st ->
      P (snd (join_loop ext (type_mapping_of (PEStep._metadata_store st))
                (pairs_of (PEStep._metadata_store st) (PEStep._id st)) st))) ->
  forall (a : Access) (s : Session), P (self s) -> P (self (access ext a s)).
Proof.
  intros Hjoin a s Hs.
  assert (Hens : forall s', P (self s') ->
                            P (self (after (_ensure_inputs_outputs_fetched ext) s'))).
  { intros s' Hs'. rewrite self_after_ensure.
    destruct (populated (self s')); [exact Hs' | now apply Hjoin]. }
  destruct (access_cases ext a s) as [-> | ->]; auto.
Qed.

Lemma accesses_invariant (P : PEStep.t -> Prop) :
  (forall st : PEStep.t,
      P st ->
      P (snd (join_loop ext (type_mapping_of (PEStep._metadata_store st))
                (pairs_of (PEStep._metadata_store st) (PEStep._id st)) st))) ->
  forall (l : list Access) (s : Session), P (self s) -> P (self (accesses ext l s)).
Proof.
  intros Hjoin l. induction l as [|a l IH]; intros s Hs; cbn; [exact Hs|].
  apply IH. now apply access_invariant.
Qed.

Lemma insert_identity (e : Event.t) (entry : string * PEArtifact.t) (st : PEStep.t) :
  PEStep._name (insert ext e entry st) = PEStep._name st
  /\ PEStep._parameters (insert ext e entry st) = PEStep._parameters st.
Proof.
  unfold insert. destruct (is_input ext e); [now cbn|].
  destruct (is_output ext e); now cbn.
Qed.

Lemma join_loop_identity (tm : list (Z * string)) (pairs : list (Event.t * Artifact.t)) :
  forall st,
    PEStep._name (snd (join_loop ext tm pairs st)) = PEStep._name st
    /\ PEStep._parameters (snd (join_loop ext tm pairs st)) = PEStep._parameters st.
Proof.
  induction pairs as [|p rest IH]; intros st; cbn [join_loop]; [now split|].
  destruct (resolve ext tm p) as [entry|x]; [|now split].
  destruct (IH (insert ext (fst p) entry st)) as [H1 H2].
  destruct (insert_identity (fst p) entry st) as [H3 H4].
  split; congruence.
Qed.

End ReachableLemmas.

(** ** Names without duplicates *)

Section NoDupLemmas.
Context {K V : Type} `{PyKey K}.

Lemma get_None_not_in (d : list (K * V)) (k : K) :
  Dict.get d k = None -> ~ In k (Dict.keys d).
Proof.
  induction d as [|[k' v'] rest IH]; cbn; [tauto|].
  destruct (key_eqb k k') eqn:E; [discriminate|].
  intros Hget [Heq | Hin]; [|now apply IH].
  subst k'. now rewrite key_eqb_refl in E.
Qed.

Lemma setitem_NoDup (d : list (K * V)) (k : K) (v : V) :
  NoDup (Dict.keys d) -> NoDup (Dict.keys (Dict.setitem d k v)).
Proof.
  intros Hnd. rewrite keys_setitem. unfold Dict.contains.
  destruct (Dict.get d k) eqn:Hget; [now rewrite app_nil_r|].
  apply NoDup_app; [exact Hnd | repeat constructor; intros [] |].
  intros a Ha [<- | []]. now apply (get_None_not_in _ _ Hget).
Qed.

(** In a dictionary without duplicate keys, the i-th key maps to the i-th
    value. *)
Lemma get_nth_key (d : list (K * V)) :
  NoDup (Dict.keys d) ->
  forall (i : nat) (k : K),
    nth_error (Dict.keys d) i = Some k ->
    Dict.get d k = nth_error (Dict.values d) i.
Proof.
  induction d as [|[k' v'] rest IH]; intros Hnd i k Hi.
  - destruct i; discriminate.
  - cbn in Hnd. apply NoDup_cons_iff in Hnd as [Hnotin Hnd].
    destruct i as [|i]; cbn in *.
    + injection Hi as <-. now rewrite key_eqb_refl.
    + destruct (key_eqb k k') eqn:E.
      * apply key_eqb_eq in E. subst k'.
        apply nth_error_In in Hi. contradiction.
      * now apply IH.
Qed.

End NoDupLemmas.

Section NameLemmas.
Variable ext : Externals.

Lemma insert_names_distinct (e : Event.t) (entry : string * PEArtifact.t)
  (st : PEStep.t) :
  names_distinct st -> names_distinct (insert ext e entry st).
Proof.
  intros [Hin Hout]. unfold insert, names_distinct.
  destruct (is_input ext e); cbn.
  - split; [now apply setitem_NoDup | exact Hout].
  - destruct (is_output ext e); cbn.
    + split; [exact Hin | now apply setitem_NoDup].
    + now split.
Qed.

Lemma join_loop_names_distinct (tm : list (Z * string))
  (pairs : list (Event.t * Artifact.t)) :
  forall st, names_distinct st -> names_distinct (snd (join_loop ext tm pairs st)).
Proof.
  induction pairs as [|p rest IH]; intros st Hst; cbn [join_loop]; [exact Hst|].
  destruct (resolve ext tm p) as [entry|x]; [|exact Hst].
  apply IH, insert_names_distinct, Hst.
Qed.

Lemma reachable_names_distinct (id_ : Z) (name : string)
  (parameters : list (string * pyval)) (store : MetadataStore.t) (l : list Access) :
  names_distinct (self (accesses ext l (new_session id_ name parameters store))).
Proof.
  apply (accesses_invariant ext names_distinct).
  - intros st Hst. now apply join_loop_names_distinct.
  - split; constructor.
Qed.

Lemma ensure_names_distinct (s s1 : Session) (r : result unit) :
  names_distinct (self s) ->
  _ensure_inputs_outputs_fetched ext s = (r, s1) ->
  names_distinct (self s1).
Proof.
  intros Hs Hens.
  assert (Hs1 : s1 = after (_ensure_inputs_outputs_fetched ext) s)
    by (unfold after; now rewrite Hens).
  rewrite Hs1, self_after_ensure.
  destruct (populated (self s)); [exact Hs | now apply join_loop_names_distinct].
Qed.

End NameLemmas.

Section AccessorEquations.
Variable ext : Externals.

Lemma inputs_unfold (s : Session) :
  inputs ext s =
  match _ensure_inputs_outputs_fetched ext s with
  | (Ok _, s1) => (Ok (Dict.values (PEStep._inputs (self s1))), s1)
  | (Raise e, s1) => (Raise e, s1)
  end.
Proof.
  unfold inputs, bind, gets.
  destruct (_ensure_inputs_outputs_fetched ext s) as [[u|e] s1]; reflexivity.
Qed.

Lemma outputs_unfold (s : Session) :
  outputs ext s =
  match _ensure_inputs_outputs_fetched ext s with
  | (Ok _, s1) => (Ok (Dict.values (PEStep._outputs (self s1))), s1)
  | (Raise e, s1) => (Raise e, s1)
  end.
Proof.
  unfold outputs, bind, gets.
  destruct (_ensure_inputs_outputs_fetched ext s) as [[u|e] s1]; reflexivity.
Qed.

Lemma get_input_names_unfold (s : Session) :
  get_input_names ext s =
  match _ensure_inputs_outputs_fetched ext s with
  | (Ok _, s1) => (Ok (Dict.keys (PEStep._inputs (self s1))), s1)
  | (Raise e, s1) => (Raise e, s1)
  end.
Proof.
  unfold get_input_names, bind, gets.
  destruct (_ensure_inputs_outputs_fetched ext s) as [[u|e] s1]; reflexivity.
Qed.

Lemma get_output_names_unfold (s : Session) :
  get_output_names ext s =
  match _ensure_inputs_outputs_fetched ext s with
  | (Ok _, s1) => (Ok (Dict.keys (PEStep._outputs (self s1))), s1)
  | (Raise e, s1) => (Raise e, s1)
  end.
Proof.
  unfold get_output_names, bind, gets.
  destruct (_ensure_inputs_outputs_fetched ext s) as [[u|e] s1]; reflexivity.
Qed.

End AccessorEquations.

(** X1.  Whatever accesses a step view has gone through since it was made,
    [get_input_names] and [get_output_names], when they return, return
    names that are pairwise distinct. *)
Theorem names_are_pairwise_distinct (ext : Externals) (id_ : Z) (name : string)
  (parameters : list (string * pyval)) (store : MetadataStore.t) (l : list Access) :
  (forall (names : list string) (s1 : Session),
      get_input_names ext (accesses ext l (new_session id_ name parameters store))
      = (Ok names, s1) ->
      NoDup names)
  /\ (forall (names : list string) (s1 : Session),
         get_output_names ext (accesses ext l (new_session id_ name parameters store))
         = (Ok names, s1) ->
         NoDup names).
Proof.
  pose proof (reachable_names_distinct ext id_ name parameters store l) as Hreach.
  split; intros names s1.
  - rewrite get_input_names_unfold.
    destruct (_ensure_inputs_outputs_fetched ext
                (accesses ext l (new_session id_ name parameters store)))
      as [[u|e] s'] eqn:Hens; [|discriminate].
    intros [= <- <-]. apply (ensure_names_distinct ext _ Hreach Hens).
  - rewrite get_output_names_unfold.
    destruct (_ensure_inputs_outputs_fetched ext
                (accesses ext l (new_session id_ name parameters store)))
      as [[u|e] s'] eqn:Hens; [|discriminate].
    intros [= <- <-]. apply (ensure_names_distinct ext _ Hreach Hens).
Qed.

(** X1 at the store that returns the input events "a", "b", "a". *)
Lemma names_are_pairwise_distinct_witness :
  fst (get_input_names sample_ext
         (accesses sample_ext [Access_outputs] (sample_session duplicate_store)))
  = Ok ["a"; "b"]
  /\ NoDup ["a"; "b"].
Proof.
  split; [reflexivity|].
  destruct (@names_are_pairwise_distinct sample_ext 1 "trainer" [] duplicate_store
              [Access_outputs]) as [Hin _].
  apply (Hin ["a"; "b"]
           (after (get_input_names sample_ext)
              (accesses sample_ext [Access_outputs] (sample_session duplicate_store)))).
  reflexivity.
Defined.

(** X2.  The names and the views of a step view line up: when
    [get_input_names] returns, [inputs] returns as many views as there are
    names, and [get_input] of the i-th name returns the i-th view; likewise
    for the outputs. *)
Theorem names_and_views_line_up (ext : Externals) (id_ : Z) (name : string)
  (parameters : list (string * pyval)) (store : MetadataStore.t) (l : list Access) :
  (forall (names : list string) (s1 : Session),
      get_input_names ext (accesses ext l (new_session id_ name parameters store))
      = (Ok names, s1) ->
      exists views : list PEArtifact.t,
        inputs ext (accesses ext l (new_session id_ name parameters store))
        = (Ok views, s1)
        /\ List.length views = List.length names
        /\ forall (i : nat) (n : string),
             nth_error names i = Some n ->
             exists v : PEArtifact.t,
               nth_error views i = Some v
               /\ get_input ext n (accesses ext l (new_session id_ name parameters store))
                  = (Ok v, s1))
  /\ (forall (names : list string) (s1 : Session),
         get_output_names ext (accesses ext l (new_session id_ name parameters store))
         = (Ok names, s1) ->
         exists views : list PEArtifact.t,
           outputs ext (accesses ext l (new_session id_ name parameters store))
           = (Ok views, s1)
           /\ List.length views = List.length names
           /\ forall (i : nat) (n : string),
                nth_error names i = Some n ->
                exists v : PEArtifact.t,
                  nth_error views i = Some v
                  /\ get_output ext n
                       (accesses ext l (new_session id_ name parameters store))
                     = (Ok v, s1)).
Proof.
  pose proof (reachable_names_distinct ext id_ name parameters store l) as Hreach.
  split; intros names s1.
  - rewrite get_input_names_unfold.
    destruct (_ensure_inputs_outputs_fetched ext
                (accesses ext l (new_session id_ name parameters store)))
      as [[u|e] s'] eqn:Hens; [|discriminate].
    intros [= <- <-].
    destruct (ensure_names_distinct ext _ Hreach Hens) as [Hnd _].
    exists (Dict.values (PEStep._inputs (self s'))).
    split; [now rewrite inputs_unfold, Hens|].
    split; [unfold Dict.values, Dict.keys; now rewrite !length_map|].
    intros i n Hi.
    pose proof (get_nth_key _ Hnd i Hi) as Hget.
    destruct (nth_error (Dict.values (PEStep._inputs (self s'))) i) as [v|] eqn:Hv.
    + exists v. split; [reflexivity|].
      now rewrite get_input_unfold, Hens, Hget.
    + exfalso. apply nth_error_None in Hv.
      assert (Hlt : i < List.length (Dict.keys (PEStep._inputs (self s'))))
        by (apply nth_error_Some; congruence).
      unfold Dict.values, Dict.keys in *. rewrite length_map in *. lia.
  - rewrite get_output_names_unfold.
    destruct (_ensure_inputs_outputs_fetched ext
                (accesses ext l (new_session id_ name parameters store)))
      as [[u|e] s'] eqn:Hens; [|discriminate].
    intros [= <- <-].
    destruct (ensure_names_distinct ext _ Hreach Hens) as [_ Hnd].
    exists (Dict.values (PEStep._outputs (self s'))).
    split; [now rewrite outputs_unfold, Hens|].
    split; [unfold Dict.values, Dict.keys; now rewrite !length_map|].
    intros i n Hi.
    pose proof (get_nth_key _ Hnd i Hi) as Hget.
    destruct (nth_error (Dict.values (PEStep._outputs (self s'))) i) as [v|] eqn:Hv.
    + exists v. split; [reflexivity|].
      now rewrite get_output_unfold, Hens, Hget.
    + exfalso. apply nth_error_None in Hv.
      assert (Hlt : i < List.length (Dict.keys (PEStep._outputs (self s'))))
        by (apply nth_error_Some; congruence).
      unfold Dict.values, Dict.keys in *. rewrite length_map in *. lia.
Qed.

(** X2 at the store of the three input events "a", "b", "a": the second
    name is "b" and [get_input] of it is the second view. *)
Lemma names_and_views_line_up_witness :
  exists v : PEArtifact.t,
    PEArtifact._id v = 11%Z
    /\ fst (get_input sample_ext "b" (sample_session duplicate_store)) = Ok v
    /\ nth_error ["a"; "b"] 1 = Some "b".
Proof.
  destruct (@names_and_views_line_up sample_ext 1 "trainer" [] duplicate_store [])
    as [Hin _].
  destruct (Hin ["a"; "b"]
              (after (get_input_names sample_ext) (sample_session duplicate_store))
              eq_refl)
    as [views [Hviews [_ Hnth]]].
  destruct (Hnth 1 "b" eq_refl) as [v [Hv Hget]].
  exists v. split; [|split; [|reflexivity]].
  - cbn in Hviews. injection Hviews as <-. cbn in Hv. injection Hv as <-. reflexivity.
  - cbn [accesses fold_left] in Hget. unfold sample_session. now rewrite Hget.
Defined.

(** ** Joins that insert nothing *)

Section EmptyJoinLemmas.
Variable ext : Externals.

Lemma unpopulated_empty (st : PEStep.t) :
  populated st = false -> PEStep._inputs st = [] /\ PEStep._outputs st = [].
Proof.
  unfold populated. destruct (PEStep._inputs st), (PEStep._outputs st);
    cbn; intros; try discriminate; now split.
Qed.

Lemma ensure_returns_unpopulated_before (s s1 : Session) (r : result unit) :
  _ensure_inputs_outputs_fetched ext s = (r, s1) ->
  populated (self s1) = false ->
  populated (self s) = false.
Proof.
  intros Hens Hu. destruct (populated (self s)) eqn:Hp; [|reflexivity].
  rewrite (ensure_populated ext s Hp) in Hens. injection Hens as _ <-. congruence.
Qed.

(** The guard on any session with the same empty step view does what it
    did the first time. *)
Lemma ensure_again_unpopulated (s s1 s' : Session) (r : result unit) :
  _ensure_inputs_outputs_fetched ext s = (r, s1) ->
  populated (self s1) = false ->
  self s' = self s ->
  _ensure_inputs_outputs_fetched ext s'
  = (r, {| self := self s;
           log := log s' ++ join_calls (PEStep._metadata_store (self s))
                              (PEStep._id (self s)) |}).
Proof.
  intros Hens Hu1 Hself.
  pose proof (ensure_returns_unpopulated_before _ Hens Hu1) as Hu.
  rewrite ensure_unfold, Hu in Hens. cbn zeta in Hens.
  injection Hens as Hr Hs1. subst s1. cbn [self] in Hu1.
  rewrite ensure_unfold, Hself, Hu. cbn zeta.
  rewrite (join_loop_unpopulated _ _ _ _ Hu1), Hr. reflexivity.
Qed.

End EmptyJoinLemmas.

(** X3.  A join that raises before it has inserted anything is not
    remembered: every later access runs it again, raises the same exception,
    fetches the events once more and leaves the step view as it was. *)
Theorem failed_join_is_retried (ext : Externals) (s s1 : Session) (e : exn) :
  _ensure_inputs_outputs_fetched ext s = (Raise e, s1) ->
  populated (self s1) = false ->
  forall l : list Access,
    events_fetches (accesses ext l s) = events_fetches s + List.length l
    /\ self (accesses ext l s) = self s
    /\ forall a : Access, access_raised ext a (accesses ext l s) = Some e.
Proof.
  intros Hens Hu1.
  assert (Hstep : forall (a : Access) (s' : Session),
             self s' = self s ->
             access_raised ext a s' = Some e
             /\ self (access ext a s') = self s
             /\ events_fetches (access ext a s') = S (events_fetches s')).
  { intros a s' Hself.
    pose proof (@ensure_again_unpopulated ext s s1 s' (Raise e) Hens Hu1 Hself) as Hagain.
    destruct a; cbn [access access_raised]; unfold after;
      rewrite ?inputs_unfold, ?outputs_unfold, ?get_input_names_unfold,
        ?get_output_names_unfold, ?get_input_unfold, ?get_output_unfold, Hagain;
      cbn [fst snd raised self]; (split; [reflexivity|split; [reflexivity|]]);
      rewrite events_fetches_app; reflexivity. }
  intros l. revert s Hens Hu1 Hstep.
  induction l as [|a l IH] using rev_ind; intros s Hens Hu1 Hstep.
  - cbn. split; [lia|]. split; [reflexivity|].
    intros a. now apply Hstep.
  - unfold accesses in *. rewrite fold_left_app. cbn [fold_left].
    destruct (IH s Hens Hu1 Hstep) as [Hcount [Hself _]].
    destruct (Hstep a _ Hself) as [_ [Hself' Hcount']].
    rewrite length_app. cbn [List.length].
    split; [rewrite Hcount', Hcount; lia|].
    split; [exact Hself'|].
    intros b. now apply Hstep.
Qed.

(** X3 at a store whose only artifact has an unknown type: two accesses,
    two fetches, the same [KeyError] at a third. *)
Lemma failed_join_is_retried_witness :
  events_fetches
    (accesses sample_ext [Access_inputs; Access_get_output "x"]
       (sample_session
          (table_store [] sample_types [mk_event 1 11 3 "b"]
             [mk_artifact 11 99 "/a/11" "builtin.BuiltInMaterializer"])))
  = 2
  /\ access_raised sample_ext Access_outputs
       (accesses sample_ext [Access_inputs; Access_get_output "x"]
          (sample_session
             (table_store [] sample_types [mk_event 1 11 3 "b"]
                [mk_artifact 11 99 "/a/11" "builtin.BuiltInMaterializer"])))
     = Some (KeyError (PyInt 99)).
Proof.
  destruct (@failed_join_is_retried sample_ext
              (sample_session
                 (table_store [] sample_types [mk_event 1 11 3 "b"]
                    [mk_artifact 11 99 "/a/11" "builtin.BuiltInMaterializer"]))
              (after (_ensure_inputs_outputs_fetched sample_ext)
                 (sample_session
                    (table_store [] sample_types [mk_event 1 11 3 "b"]
                       [mk_artifact 11 99 "/a/11" "builtin.BuiltInMaterializer"])))
              (KeyError (PyInt 99)) eq_refl eq_refl
              [Access_inputs; Access_get_output "x"])
    as [Hcount [_ Hraise]].
  split; [exact Hcount | apply Hraise].
Defined.

(** X4.  When the join of a step view returns without an entry, [inputs]
    and [get_input_names] return the empty list after one fetch of the
    events, whereas [get_input] raises the [KeyError] that lists no name
    after two fetches, the second one made to list the names; likewise for
    the outputs. *)
Theorem empty_join_by_name_fetches_twice (ext : Externals) (s s1 : Session)
  (name : string) :
  _ensure_inputs_outputs_fetched ext s = (Ok tt, s1) ->
  populated (self s1) = false ->
  fst (inputs ext s) = Ok []
  /\ fst (get_input_names ext s) = Ok []
  /\ fst (outputs ext s) = Ok []
  /\ fst (get_output_names ext s) = Ok []
  /\ events_fetches (after (inputs ext) s) = S (events_fetches s)
  /\ fst (get_input ext name s)
     = Raise (KeyError (PyStr (no_input_message ext name [])))
  /\ events_fetches (after (get_input ext name) s) = S (S (events_fetches s))
  /\ fst (get_output ext name s)
     = Raise (KeyError (PyStr (no_output_message ext name [])))
  /\ events_fetches (after (get_output ext name) s) = S (S (events_fetches s)).
Proof.
  intros Hens Hu1.
  pose proof (@ensure_returns_unpopulated_before ext s s1 (Ok tt) Hens Hu1) as Hu.
  pose proof (@ensure_again_unpopulated ext s s1 s (Ok tt) Hens Hu1 eq_refl) as Hfirst.
  assert (Hs1 : self s1 = self s).
  { rewrite Hens in Hfirst. now injection Hfirst as ->. }
  pose proof (@ensure_again_unpopulated ext s s1 s1 (Ok tt) Hens Hu1 Hs1) as Hsecond.
  destruct (@unpopulated_empty (self s) Hu) as [Hin Hout].
  assert (Hc1 : events_fetches s1 = S (events_fetches s)).
  { rewrite Hens in Hfirst. injection Hfirst as ->. apply events_fetches_app. }
  unfold after.
  rewrite inputs_unfold, outputs_unfold, get_input_names_unfold,
    get_output_names_unfold, get_input_unfold, get_output_unfold, Hens.
  rewrite Hs1, Hin, Hout. cbn [Dict.get Dict.values Dict.keys map fst snd].
  rewrite Hsecond. cbn [fst snd self]. rewrite Hin, Hout.
  cbn [Dict.keys map].
  assert (Hc2 : forall st : PEStep.t,
             events_fetches
               {| self := st;
                  log := log s1 ++ join_calls (PEStep._metadata_store (self s))
                                     (PEStep._id (self s)) |}
             = S (S (events_fetches s))).
  { intros st. rewrite events_fetches_app. fold (events_fetches s1). now rewrite Hc1. }
  repeat split; solve [reflexivity | exact Hc1 | apply Hc2].
Qed.

(** X4 at the store that records no event for the step. *)
Lemma empty_join_by_name_fetches_twice_witness :
  fst (get_input sample_ext "data" (sample_session no_events_store))
  = Raise (KeyError (PyStr
      "No input artifact found for name `data`. This step only has inputs with the following names: `[]`"))
  /\ events_fetches (after (get_input sample_ext "data") (sample_session no_events_store))
     = 2.
Proof.
  destruct (@empty_join_by_name_fetches_twice sample_ext
              (sample_session no_events_store)
              (after (_ensure_inputs_outputs_fetched sample_ext)
                 (sample_session no_events_store))
              "data" eq_refl eq_refl)
    as [_ [_ [_ [_ [_ [Hraise [Hcount _]]]]]]].
  split; [rewrite Hraise; reflexivity | exact Hcount].
Defined.

(** ** The calls a step view makes *)

Section LogLemmas.
Variable ext : Externals.

Lemma concat_repeat_snoc (A : Type) (x : list A) (k : nat) :
  List.concat (repeat x k) ++ x = List.concat (repeat x (S k)).
Proof.
  induction k as [|k IH]; cbn in *; [now rewrite app_nil_r|].
  now rewrite <- app_assoc, IH.
Qed.

Lemma after_ensure_log (s : Session) :
  log (after (_ensure_inputs_outputs_fetched ext) s)
  = if populated (self s) then log s
    else log s ++ join_calls (PEStep._metadata_store (self s)) (PEStep._id (self s)).
Proof.
  unfold after. rewrite ensure_unfold. destruct (populated (self s)); reflexivity.
Qed.

Lemma after_ensure_id (s : Session) :
  PEStep._id (self (after (_ensure_inputs_outputs_fetched ext) s)) = PEStep._id (self s)
  /\ PEStep._metadata_store (self (after (_ensure_inputs_outputs_fetched ext) s))
     = PEStep._metadata_store (self s).
Proof.
  rewrite self_after_ensure. destruct (populated (self s)); [now split|].
  apply join_loop_id.
Qed.

Lemma ensure_log_of_joins (store : MetadataStore.t) (id_ : Z) (s : Session) :
  log_of_joins store id_ s ->
  log_of_joins store id_ (after (_ensure_inputs_outputs_fetched ext) s).
Proof.
  intros [Hid [Hstore Hlog]].
  destruct (after_ensure_id s) as [Hid' Hstore'].
  split; [congruence|]. split; [congruence|].
  rewrite after_ensure_log. unfold events_fetches. rewrite after_ensure_log.
  destruct (populated (self s)); [exact Hlog|].
  rewrite Hid, Hstore, filter_app, length_app. cbn [filter is_events_call join_calls
                                                     List.length].
  replace (List.length (filter is_events_call (log s)) + 1)
    with (S (events_fetches s)) by (unfold events_fetches; lia).
  rewrite <- concat_repeat_snoc. now rewrite <- Hlog.
Qed.

Lemma access_log_of_joins (store : MetadataStore.t) (id_ : Z) (a : Access)
  (s : Session) :
  log_of_joins store id_ s -> log_of_joins store id_ (access ext a s).
Proof.
  intros Hs. destruct (access_cases ext a s) as [-> | ->];
    repeat apply ensure_log_of_joins; exact Hs.
Qed.

Lemma accesses_log_of_joins (store : MetadataStore.t) (id_ : Z) (l : list Access) :
  forall s, log_of_joins store id_ s -> log_of_joins store id_ (accesses ext l s).
Proof.
  induction l as [|a l IH]; intros s Hs; cbn; [exact Hs|].
  apply IH, access_log_of_joins, Hs.
Qed.

Lemma joins_have_no_executions_call (store : MetadataStore.t) (id_ : Z) (k : nat) :
  filter is_executions_call (List.concat (repeat (join_calls store id_) k)) = [].
Proof.
  induction k as [|k IH]; cbn; [reflexivity | exact IH].
Qed.

End LogLemmas.

(** X5.  Through any sequence of accesses a step view calls the store only
    in whole joins: the artifact types, then the events of its own execution
    id, then the artifacts with the ids of those events, as often as it has
    joined; no access asks for an execution record. *)
Theorem accesses_call_the_store_in_joins (ext : Externals) (id_ : Z) (name : string)
  (parameters : list (string * pyval)) (store : MetadataStore.t) (l : list Access) :
  log (accesses ext l (new_session id_ name parameters store))
  = List.concat
      (repeat
         [Call_get_artifact_types;
          Call_get_events_by_execution_ids [id_];
          Call_get_artifacts_by_id
            (map Event.artifact_id
               (MetadataStore.get_events_by_execution_ids store [id_]))]
         (events_fetches (accesses ext l (new_session id_ name parameters store))))
  /\ executions_fetches (accesses ext l (new_session id_ name parameters store)) = 0.
Proof.
  assert (Hlog : log_of_joins store id_
                   (accesses ext l (new_session id_ name parameters store))).
  { apply accesses_log_of_joins. repeat split. }
  destruct Hlog as [_ [_ Hlog]].
  split; [exact Hlog|].
  unfold executions_fetches. rewrite Hlog, joins_have_no_executions_call. reflexivity.
Qed.

(** ** Identity and status *)

Section IdentityLemmas.
Variable ext : Externals.

Lemma join_loop_same_identity (st0 : PEStep.t) (tm : list (Z * string))
  (pairs : list (Event.t * Artifact.t)) (st : PEStep.t) :
  same_identity st0 st -> same_identity st0 (snd (join_loop ext tm pairs st)).
Proof.
  intros [H1 [H2 [H3 H4]]].
  destruct (join_loop_id ext tm pairs st) as [J1 J4].
  destruct (join_loop_identity ext tm pairs st) as [J2 J3].
  repeat split; congruence.
Qed.

Lemma status_unfold (s : Session) :
  status ext s
  = (match getitem0 (MetadataStore.get_executions_by_id
                       (PEStep._metadata_store (self s)) [PEStep._id (self s)]) with
     | Ok proto =>
         Ok (if ((Execution.last_known_state proto =? COMPLETE ext)%Z
                 || (Execution.last_known_state proto =? CACHED ext)%Z)%bool
             then Completed
             else if (Execution.last_known_state proto =? RUNNING ext)%Z
                  then Running else Failed)
     | Raise e => Raise e
     end,
     {| self := self s;
        log := log s ++ [Call_get_executions_by_id [PEStep._id (self s)]] |}).
Proof.
  unfold status, bind, gets, store_call, lift. cbn [self log].
  destruct (getitem0 (MetadataStore.get_executions_by_id
                        (PEStep._metadata_store (self s)) [PEStep._id (self s)]))
    as [proto|e]; [|reflexivity].
  destruct ((Execution.last_known_state proto =? COMPLETE ext)%Z
            || (Execution.last_known_state proto =? CACHED ext)%Z)%bool;
    [reflexivity|].
  destruct (Execution.last_known_state proto =? RUNNING ext)%Z; reflexivity.
Qed.

(** Sessions with the same step view come out of the guard with the same
    result and the same step view. *)
Lemma ensure_same_self (s s' : Session) :
  self s = self s' ->
  fst (_ensure_inputs_outputs_fetched ext s) = fst (_ensure_inputs_outputs_fetched ext s')
  /\ self (snd (_ensure_inputs_outputs_fetched ext s))
     = self (snd (_ensure_inputs_outputs_fetched ext s')).
Proof.
  intros Hself. rewrite !ensure_unfold, Hself.
  destruct (populated (self s')); cbn; [now split | now split].
Qed.

Lemma get_input_same_self (n : string) (s s' : Session) :
  self s = self s' ->
  self (after (get_input ext n) s) = self (after (get_input ext n) s').
Proof.
  intros Hself.
  destruct (ensure_same_self s s' Hself) as [Hfst Hsnd].
  unfold after. rewrite !get_input_unfold.
  destruct (_ensure_inputs_outputs_fetched ext s) as [[u|e] s1];
    destruct (_ensure_inputs_outputs_fetched ext s') as [[u'|e'] s1'];
    cbn [fst snd] in *; try discriminate; [|exact Hsnd].
  rewrite Hsnd.
  destruct (Dict.get (PEStep._inputs (self s1')) n); [exact Hsnd|].
  destruct (ensure_same_self s1 s1' Hsnd) as [Hfst2 Hsnd2].
  destruct (_ensure_inputs_outputs_fetched ext s1) as [[u2|e2] s2];
    destruct (_ensure_inputs_outputs_fetched ext s1') as [[u2'|e2'] s2'];
    cbn [fst snd] in *; try discriminate; exact Hsnd2.
Qed.

Lemma get_output_same_self (n : string) (s s' : Session) :
  self s = self s' ->
  self (after (get_output ext n) s) = self (after (get_output ext n) s').
Proof.
  intros Hself.
  destruct (ensure_same_self s s' Hself) as [Hfst Hsnd].
  unfold after. rewrite !get_output_unfold.
  destruct (_ensure_inputs_outputs_fetched ext s) as [[u|e] s1];
    destruct (_ensure_inputs_outputs_fetched ext s') as [[u'|e'] s1'];
    cbn [fst snd] in *; try discriminate; [|exact Hsnd].
  rewrite Hsnd.
  destruct (Dict.get (PEStep._outputs (self s1')) n); [exact Hsnd|].
  destruct (ensure_same_self s1 s1' Hsnd) as [Hfst2 Hsnd2].
  destruct (_ensure_inputs_outputs_fetched ext s1) as [[u2|e2] s2];
    destruct (_ensure_inputs_outputs_fetched ext s1') as [[u2'|e2'] s2'];
    cbn [fst snd] in *; try discriminate; exact Hsnd2.
Qed.

Lemma after_inputs (s : Session) :
  after (inputs ext) s = after (_ensure_inputs_outputs_fetched ext) s.
Proof. unfold inputs. apply after_read_only. Qed.

Lemma after_outputs (s : Session) :
  after (outputs ext) s = after (_ensure_inputs_outputs_fetched ext) s.
Proof. unfold outputs. apply after_read_only. Qed.

Lemma after_get_input_names (s : Session) :
  after (get_input_names ext) s = after (_ensure_inputs_outputs_fetched ext) s.
Proof. unfold get_input_names. apply after_read_only. Qed.

Lemma after_get_output_names (s : Session) :
  after (get_output_names ext) s = after (_ensure_inputs_outputs_fetched ext) s.
Proof. unfold get_output_names. apply after_read_only. Qed.

Lemma access_same_self (a : Access) (s s' : Session) :
  self s = self s' -> self (access ext a s) = self (access ext a s').
Proof.
  intros Hself.
  destruct (ensure_same_self s s' Hself) as [_ Hsnd].
  destruct a; cbn [access].
  - rewrite !after_inputs. exact Hsnd.
  - rewrite !after_outputs. exact Hsnd.
  - rewrite !after_get_input_names. exact Hsnd.
  - rewrite !after_get_output_names. exact Hsnd.
  - now apply get_input_same_self.
  - now apply get_output_same_self.
Qed.

Lemma accesses_same_self (l : list Access) :
  forall s s', self s = self s' -> self (accesses ext l s) = self (accesses ext l s').
Proof.
  induction l as [|a l IH]; intros s s' Hself; cbn; [exact Hself|].
  apply IH, access_same_self, Hself.
Qed.

End IdentityLemmas.

(** X6.  No sequence of accesses and no [status] query changes the
    execution id, the name, the parameters or the store of a step view: the
    [name] and [parameters] properties return what the constructor was
    given, and [status] leaves the whole step view, mappings included, as it
    is. *)
Theorem identity_is_never_changed (ext : Externals) (s : Session) (l : list Access) :
  PEStep._id (self (accesses ext l s)) = PEStep._id (self s)
  /\ PEStep.name (self (accesses ext l s)) = PEStep.name (self s)
  /\ PEStep.parameters (self (accesses ext l s)) = PEStep.parameters (self s)
  /\ PEStep._metadata_store (self (accesses ext l s)) = PEStep._metadata_store (self s)
  /\ self (after (status ext) s) = self s.
Proof.
  assert (Hsame : same_identity (self s) (self (accesses ext l s))).
  { apply (accesses_invariant ext (same_identity (self s))).
    - intros st Hst. now apply join_loop_same_identity.
    - repeat split. }
  destruct Hsame as [H1 [H2 [H3 H4]]].
  repeat split; try assumption.
  unfold after. now rewrite status_unfold.
Qed.

(** X7.  [status] and the lazy population do not interfere: [status]
    returns the same after any sequence of accesses as before it, it fetches
    no events, and the mappings a sequence of accesses builds are the same
    whether or not [status] was queried first. *)
Theorem status_and_population_are_independent (ext : Externals) (s : Session)
  (l : list Access) :
  fst (status ext (accesses ext l s)) = fst (status ext s)
  /\ events_fetches (after (status ext) s) = events_fetches s
  /\ self (accesses ext l (after (status ext) s)) = self (accesses ext l s).
Proof.
  assert (Hsame : same_identity (self s) (self (accesses ext l s))).
  { apply (accesses_invariant ext (same_identity (self s))).
    - intros st Hst. now apply join_loop_same_identity.
    - repeat split. }
  destruct Hsame as [Hid [_ [_ Hstore]]].
  split; [|split].
  - rewrite !status_unfold. cbn [fst]. now rewrite Hid, Hstore.
  - unfold after. rewrite status_unfold. unfold events_fetches. cbn [snd log].
    rewrite filter_app. cbn. now rewrite app_nil_r.
  - apply accesses_same_self. unfold after. now rewrite status_unfold.
Qed.

(** ** The type dictionary *)

Section ComprehensionLemmas.
Context {K V A : Type} `{PyKey K}.
Variable key : A -> K.
Variable val : A -> V.

Lemma comprehension_snoc (xs : list A) (x : A) :
  Dict.comprehension key val (xs ++ [x])
  = Dict.setitem (Dict.comprehension key val xs) (key x) (val x).
Proof. unfold Dict.comprehension. now rewrite fold_left_app. Qed.

Lemma comprehension_get_absent (xs : list A) (k : K) :
  ~ In k (map key xs) -> Dict.get (Dict.comprehension key val xs) k = None.
Proof.
  induction xs as [|x xs IH] using rev_ind; intros Hnotin; [reflexivity|].
  rewrite comprehension_snoc, get_setitem_other.
  - apply IH. intros Hin. apply Hnotin. rewrite map_app. apply in_or_app. now left.
  - intros ->. apply Hnotin. rewrite map_app. apply in_or_app. right. now left.
Qed.

Lemma comprehension_get_last (l2 : list A) :
  forall (l1 : list A) (x : A),
    ~ In (key x) (map key l2) ->
    Dict.get (Dict.comprehension key val (l1 ++ x :: l2)) (key x) = Some (val x).
Proof.
  induction l2 as [|y l2 IH] using rev_ind; intros l1 x Hnotin.
  - rewrite comprehension_snoc. apply get_setitem_same.
  - replace (l1 ++ x :: l2 ++ [y]) with ((l1 ++ x :: l2) ++ [y])
      by (now rewrite <- app_assoc).
    rewrite comprehension_snoc, get_setitem_other.
    + apply IH. intros Hin. apply Hnotin. rewrite map_app. apply in_or_app. now left.
    + intros Heq. apply Hnotin. rewrite map_app. apply in_or_app. right.
      left. now symmetry.
Qed.

End ComprehensionLemmas.

(** X8.  The type dictionary of a join maps a type id to the name of the
    last type record of the store that carries this id, and looking up an
    id that no type record carries raises the [KeyError] of that id. *)
Theorem type_dictionary_last_record_wins (store : MetadataStore.t) :
  (forall type_id : Z,
      ~ In type_id (map ArtifactType.id (MetadataStore.get_artifact_types store)) ->
      Dict.getitem (type_mapping_of store) type_id = Raise (KeyError (PyInt type_id)))
  /\ (forall (earlier later : list ArtifactType.t) (type_ : ArtifactType.t),
         MetadataStore.get_artifact_types store = earlier ++ type_ :: later ->
         ~ In (ArtifactType.id type_) (map ArtifactType.id later) ->
         Dict.getitem (type_mapping_of store) (ArtifactType.id type_)
         = Ok (ArtifactType.name type_)).
Proof.
  split.
  - intros type_id Hnotin. unfold Dict.getitem, type_mapping_of.
    now rewrite comprehension_get_absent.
  - intros earlier later type_ Htypes Hnotin. unfold Dict.getitem, type_mapping_of.
    now rewrite Htypes, comprehension_get_last.
Qed.

(** X8 at a store that records the type id 1 twice: the second name is
    the one in the dictionary, and the id 3 is not there. *)
Lemma type_dictionary_last_record_wins_witness :
  let store :=
    table_store [] [ {| ArtifactType.id := 1; ArtifactType.name := "Dataset" |};
                     {| ArtifactType.id := 2; ArtifactType.name := "Model" |};
                     {| ArtifactType.id := 1; ArtifactType.name := "Frame" |} ] [] [] in
  Dict.getitem (type_mapping_of store) 1%Z = Ok "Frame"
  /\ Dict.getitem (type_mapping_of store) 3%Z = Raise (KeyError (PyInt 3)).
Proof.
  intros store.
  destruct (@type_dictionary_last_record_wins store) as [Habsent Hlast].
  split.
  - apply (Hlast [ {| ArtifactType.id := 1; ArtifactType.name := "Dataset" |};
                   {| ArtifactType.id := 2; ArtifactType.name := "Model" |} ]
                 []
                 {| ArtifactType.id := 1; ArtifactType.name := "Frame" |});
      [reflexivity | intros []].
  - apply Habsent. cbn. intros [H | [H | [H | []]]]; discriminate.
Defined.

(** X9.  The loop looks at the type of a pair's artifact first and at the
    event's path second, whatever the tag of the event.  On a fresh step view
    whose first pair has an artifact of a type id that no type record
    carries, the guard and [inputs] raise the [KeyError] of that id; when
    the type is known and the event's path has no step they raise the
    [IndexError] of the indexing; in both cases the three calls of the join
    have been made and both mappings are still empty. *)
Theorem first_pair_errors_in_order (ext : Externals) (id_ : Z) (name : string)
  (parameters : list (string * pyval)) (store : MetadataStore.t)
  (e : Event.t) (a : Artifact.t) (rest : list (Event.t * Artifact.t)) :
  pairs_of store id_ = (e, a) :: rest ->
  (~ In (Artifact.type_id a)
        (map ArtifactType.id (MetadataStore.get_artifact_types store)) ->
   _ensure_inputs_outputs_fetched ext (new_session id_ name parameters store)
   = (Raise (KeyError (PyInt (Artifact.type_id a))),
      {| self := PEStep.__init__ id_ name parameters store;
         log := join_calls store id_ |})
   /\ fst (inputs ext (new_session id_ name parameters store))
      = Raise (KeyError (PyInt (Artifact.type_id a))))
  /\ (In (Artifact.type_id a)
         (map ArtifactType.id (MetadataStore.get_artifact_types store)) ->
      Event.steps (Event.path e) = [] ->
      _ensure_inputs_outputs_fetched ext (new_session id_ name parameters store)
      = (Raise (IndexError "list index out of range"),
         {| self := PEStep.__init__ id_ name parameters store;
            log := join_calls store id_ |})
      /\ fst (inputs ext (new_session id_ name parameters store))
         = Raise (IndexError "list index out of range")).
Proof.
  intros Hpairs. split.
  - intros Hnotin.
    assert (Hens : _ensure_inputs_outputs_fetched ext (new_session id_ name parameters store)
                   = (Raise (KeyError (PyInt (Artifact.type_id a))),
                      {| self := PEStep.__init__ id_ name parameters store;
                         log := join_calls store id_ |})).
    { rewrite ensure_new_session, Hpairs. cbn [join_loop]. unfold resolve.
      cbn [fst snd]. unfold Dict.getitem, type_mapping_of.
      now rewrite comprehension_get_absent. }
    split; [exact Hens|]. now rewrite inputs_unfold, Hens.
  - intros Hin Hsteps.
    assert (Hknown : exists ty, Dict.getitem (type_mapping_of store) (Artifact.type_id a)
                                = Ok ty).
    { apply in_map_iff in Hin as [t [Hid Ht]].
      apply in_split in Ht as [l1 [l2 Ht]].
      unfold Dict.getitem.
      destruct (Dict.get (type_mapping_of store) (Artifact.type_id a)) as [ty|] eqn:Hget;
        [now exists ty|].
      exfalso.
      assert (Hc : Dict.contains (type_mapping_of store) (Artifact.type_id a) = true).
      { unfold type_mapping_of. rewrite Ht.
        replace (l1 ++ t :: l2) with ((l1 ++ [t]) ++ l2) by (now rewrite <- app_assoc).
        clear Ht Hget. induction l2 as [|y l2 IH] using rev_ind.
        - rewrite app_nil_r, comprehension_snoc, contains_setitem, Hid.
          cbn [key_eqb PyKey_Z]. now rewrite Z.eqb_refl.
        - rewrite app_assoc, comprehension_snoc, contains_setitem, IH.
          apply orb_true_r. }
      unfold Dict.contains in Hc. now rewrite Hget in Hc. }
    destruct Hknown as [ty Hty].
    assert (Hens : _ensure_inputs_outputs_fetched ext (new_session id_ name parameters store)
                   = (Raise (IndexError "list index out of range"),
                      {| self := PEStep.__init__ id_ name parameters store;
                         log := join_calls store id_ |})).
    { rewrite ensure_new_session, Hpairs. cbn [join_loop]. unfold resolve.
      cbn [fst snd]. now rewrite Hty, Hsteps. }
    split; [exact Hens|]. now rewrite inputs_unfold, Hens.
Qed.

(** X9 at a store whose one event is tagged with neither direction and has
    an artifact of the unknown type 99. *)
Lemma first_pair_errors_in_order_witness :
  fst (inputs sample_ext
         (new_session 1 "trainer" []
            (table_store [] sample_types [mk_event 1 11 7 "b"]
               [mk_artifact 11 99 "/a/11" "builtin.BuiltInMaterializer"])))
  = Raise (KeyError (PyInt 99)).
Proof.
  destruct (@first_pair_errors_in_order sample_ext 1 "trainer" []
              (table_store [] sample_types [mk_event 1 11 7 "b"]
                 [mk_artifact 11 99 "/a/11" "builtin.BuiltInMaterializer"])
              (mk_event 1 11 7 "b")
              (mk_artifact 11 99 "/a/11" "builtin.BuiltInMaterializer")
              [] eq_refl) as [Hunknown _].
  apply Hunknown. cbn. intros [H | [H | []]]; discriminate.
Defined.

(** ** Where the views come from *)

Section SoundnessLemmas.
Variable ext : Externals.

Lemma setitem_In (K V : Type) `{PyKey K} (d : list (K * V)) (k n : K) (x v : V) :
  In (n, v) (Dict.setitem d k x) -> In (n, v) d \/ (n = k /\ v = x).
Proof.
  induction d as [|[k' v'] rest IH]; cbn.
  - intros [[= <- <-] | []]. now right.
  - destruct (key_eqb k k') eqn:E; cbn.
    + apply key_eqb_eq in E. subst k'.
      intros [[= <- <-] | Hin]; [now right | left; now right].
    + intros [Heq | Hin]; [left; now left|].
      destruct (IH Hin) as [Hd | Hnew]; [left; now right | now right].
Qed.

Lemma setitem_length (K V : Type) `{PyKey K} (d : list (K * V)) (k : K) (x : V) :
  List.length (Dict.setitem d k x) <= S (List.length d).
Proof.
  induction d as [|[k' v'] rest IH]; cbn; [lia|].
  destruct (key_eqb k k'); cbn; lia.
Qed.

(** What a pair that resolves gives, field by field. *)
Lemma resolve_Ok_fields (tm : list (Z * string)) (e : Event.t) (a : Artifact.t)
  (n : string) (v : PEArtifact.t) :
  resolve ext tm (e, a) = Ok (n, v) ->
  exists (ty : string) (property : Value.t),
    Dict.getitem tm (Artifact.type_id a) = Ok ty
    /\ param_name e = n
    /\ Event.steps (Event.path e) <> []
    /\ properties_getitem ext (Artifact.properties a) (MATERIALIZERS_PROPERTY_KEY ext)
       = Ok property
    /\ v = {| PEArtifact._id := Event.artifact_id e;
              PEArtifact._type := ty;
              PEArtifact._uri := Artifact.uri a;
              PEArtifact._materializer := Value.string_value property |}.
Proof.
  unfold resolve, param_name, getitem0. cbn [fst snd].
  destruct (Dict.getitem tm (Artifact.type_id a)) as [ty|x]; [|discriminate].
  destruct (Event.steps (Event.path e)) as [|step0 more]; [discriminate|].
  destruct (properties_getitem ext (Artifact.properties a)
              (MATERIALIZERS_PROPERTY_KEY ext)) as [property|x]; [|discriminate].
  intros [= <- <-]. exists ty, property. repeat split. discriminate.
Qed.

(** Every entry of a mapping after the loop was there before or is what a
    pair of that direction resolves to. *)
Lemma join_loop_entries (dir : Direction) (tm : list (Z * string))
  (pairs : list (Event.t * Artifact.t)) :
  forall (st : PEStep.t) (n : string) (v : PEArtifact.t),
    In (n, v) (mapping dir (snd (join_loop ext tm pairs st))) ->
    In (n, v) (mapping dir st)
    \/ exists p, In p pairs /\ tagged ext dir (fst p) = true
                 /\ resolve ext tm p = Ok (n, v).
Proof.
  induction pairs as [|p rest IH]; intros st n v Hin; cbn [join_loop] in Hin;
    [now left|].
  destruct (resolve ext tm p) as [[n' v']|x] eqn:Hp; [|now left].
  destruct (IH _ _ _ Hin) as [Hold | [q [Hq [Htag Hres]]]].
  - rewrite mapping_insert in Hold.
    destruct (tagged ext dir (fst p)) eqn:Htag; [|now left].
    cbn [fst snd] in Hold.
    destruct (setitem_In _ _ _ _ _ Hold) as [Hd | [-> ->]]; [now left|].
    right. exists p. repeat split; [now left | exact Htag | exact Hp].
  - right. exists q. repeat split; [now right | exact Htag | exact Hres].
Qed.

Lemma join_loop_length (dir : Direction) (tm : list (Z * string))
  (pairs : list (Event.t * Artifact.t)) :
  forall st : PEStep.t,
    List.length (mapping dir (snd (join_loop ext tm pairs st)))
    <= List.length (mapping dir st)
       + List.length (filter (tagged ext dir) (map fst pairs)).
Proof.
  induction pairs as [|p rest IH]; intros st; cbn [join_loop map filter];
    [cbn; lia|].
  destruct (resolve ext tm p) as [entry|x].
  - specialize (IH (insert ext (fst p) entry st)). rewrite mapping_insert in IH.
    destruct (tagged ext dir (fst p)); cbn [List.length]; [|lia].
    pose proof (setitem_length (mapping dir st) (fst entry) (snd entry)). lia.
  - cbn [snd]. destruct (tagged ext dir (fst p)); cbn [List.length]; lia.
Qed.

Lemma tags_exclude (events : list Event.t) :
  List.length (filter (is_input ext) events) + List.length (filter (is_output ext) events)
  <= List.length events.
Proof.
  induction events as [|e events IH]; cbn; [lia|].
  unfold is_output at 1. destruct (is_input ext e) eqn:Ei; unfold is_input in Ei;
    rewrite Ei; cbn [negb andb List.length].
  - lia.
  - destruct (Event.type_ e =? OUTPUT ext)%Z; cbn [List.length]; lia.
Qed.

(** A property of step views that a join from empty mappings establishes
    is kept by every access. *)
Lemma accesses_invariant_from_empty (P : PEStep.t -> Prop) :
  (forall st : PEStep.t,
      P st -> populated st = false ->
      P (snd (join_loop ext (type_mapping_of (PEStep._metadata_store st))
                (pairs_of (PEStep._metadata_store st) (PEStep._id st)) st))) ->
  forall (l : list Access) (s : Session), P (self s) -> P (self (accesses ext l s)).
Proof.
  intros Hjoin.
  assert (Hens : forall s', P (self s') ->
                            P (self (after (_ensure_inputs_outputs_fetched ext) s'))).
  { intros s' Hs'. rewrite self_after_ensure.
    destruct (populated (self s')) eqn:Hp; [exact Hs' | now apply Hjoin]. }
  intros l. induction l as [|a l IH]; intros s Hs; cbn; [exact Hs|].
  apply IH. destruct (access_cases ext a s) as [-> | ->]; auto.
Qed.

Lemma reachable_entries_from_pairs (id_ : Z) (name : string)
  (parameters : list (string * pyval)) (store : MetadataStore.t) (l : list Access) :
  entries_from_pairs ext store id_
    (self (accesses ext l (new_session id_ name parameters store))).
Proof.
  apply (accesses_invariant ext (entries_from_pairs ext store id_)).
  - intros st [Hid [Hstore Hentries]].
    destruct (join_loop_id ext (type_mapping_of (PEStep._metadata_store st))
                (pairs_of (PEStep._metadata_store st) (PEStep._id st)) st)
      as [Hid' Hstore'].
    split; [congruence|]. split; [congruence|].
    intros dir n v Hin. rewrite Hid, Hstore in Hin.
    destruct (join_loop_entries _ _ _ _ _ _ Hin) as [Hold | Hnew];
      [now apply Hentries | exact Hnew].
  - split; [reflexivity|]. split; [reflexivity|].
    intros [] n v [].
Qed.

Lemma reachable_sizes_within_pairs (id_ : Z) (name : string)
  (parameters : list (string * pyval)) (store : MetadataStore.t) (l : list Access) :
  sizes_within_pairs ext store id_
    (self (accesses ext l (new_session id_ name parameters store))).
Proof.
  apply (accesses_invariant_from_empty (sizes_within_pairs ext store id_)).
  - intros st [Hid [Hstore Hsizes]] Hu.
    destruct (join_loop_id ext (type_mapping_of (PEStep._metadata_store st))
                (pairs_of (PEStep._metadata_store st) (PEStep._id st)) st)
      as [Hid' Hstore'].
    split; [congruence|]. split; [congruence|].
    intros dir. rewrite Hid, Hstore.
    pose proof (join_loop_length dir (type_mapping_of store) (pairs_of store id_) st)
      as Hlen.
    destruct (unpopulated_empty _ Hu) as [Hin Hout].
    destruct dir; cbn [mapping] in *; rewrite ?Hin, ?Hout in Hlen; cbn in Hlen; lia.
  - split; [reflexivity|]. split; [reflexivity|].
    intros []; cbn; lia.
Qed.

End SoundnessLemmas.

(** X10.  Every entry of the mappings of a step view, after any sequence
    of accesses, is the view of an event that the store returned for this
    step and that was paired with an artifact record: the name is the key
    of the first step of the event's path, the id is the event's artifact
    id, the uri and the type id are those of the artifact record at the
    event's position, the type name is the dictionary's name for that type
    id, and the materializer is the string under the property key. *)
Theorem entries_are_views_of_pairs (ext : Externals) (id_ : Z) (name : string)
  (parameters : list (string * pyval)) (store : MetadataStore.t) (l : list Access)
  (n : string) (v : PEArtifact.t) :
  (In (n, v) (PEStep._inputs (self (accesses ext l (new_session id_ name parameters store)))) ->
   exists (e : Event.t) (a : Artifact.t) (ty : string) (property : Value.t),
     In (e, a) (pairs_of store id_)
     /\ is_input ext e = true
     /\ param_name e = n
     /\ Dict.getitem (type_mapping_of store) (Artifact.type_id a) = Ok ty
     /\ properties_getitem ext (Artifact.properties a) (MATERIALIZERS_PROPERTY_KEY ext)
        = Ok property
     /\ v = {| PEArtifact._id := Event.artifact_id e;
               PEArtifact._type := ty;
               PEArtifact._uri := Artifact.uri a;
               PEArtifact._materializer := Value.string_value property |})
  /\ (In (n, v) (PEStep._outputs (self (accesses ext l (new_session id_ name parameters store)))) ->
      exists (e : Event.t) (a : Artifact.t) (ty : string) (property : Value.t),
        In (e, a) (pairs_of store id_)
        /\ is_output ext e = true
        /\ param_name e = n
        /\ Dict.getitem (type_mapping_of store) (Artifact.type_id a) = Ok ty
        /\ properties_getitem ext (Artifact.properties a) (MATERIALIZERS_PROPERTY_KEY ext)
           = Ok property
        /\ v = {| PEArtifact._id := Event.artifact_id e;
                  PEArtifact._type := ty;
                  PEArtifact._uri := Artifact.uri a;
                  PEArtifact._materializer := Value.string_value property |}).
Proof.
  destruct (reachable_entries_from_pairs ext id_ name parameters store l)
    as [_ [_ Hentries]].
  split; intros Hin.
  - destruct (Hentries Dir_input n v Hin) as [[e a] [Hp [Htag Hres]]].
    destruct (resolve_Ok_fields _ _ _ _ Hres) as [ty [property [Hty [Hn [_ [Hprop Hv]]]]]].
    exists e, a, ty, property. repeat split; assumption.
  - destruct (Hentries Dir_output n v Hin) as [[e a] [Hp [Htag Hres]]].
    destruct (resolve_Ok_fields _ _ _ _ Hres) as [ty [property [Hty [Hn [_ [Hprop Hv]]]]]].
    exists e, a, ty, property. repeat split; assumption.
Qed.

(** X10 at the sample store: the entry "data" of the inputs. *)
Lemma entries_are_views_of_pairs_witness :
  exists (e : Event.t) (a : Artifact.t),
    In (e, a) (pairs_of round_trip_store 1)
    /\ Event.artifact_id e = 10%Z
    /\ Artifact.uri a = "/a/10".
Proof.
  destruct (@entries_are_views_of_pairs sample_ext 1 "trainer" [] round_trip_store
              [Access_inputs] "data"
              {| PEArtifact._id := 10; PEArtifact._type := "Dataset";
                 PEArtifact._uri := "/a/10";
                 PEArtifact._materializer := "builtin.BuiltInMaterializer" |})
    as [Hin _].
  destruct Hin as [e [a [ty [property [Hp [_ [_ [_ [_ Hv]]]]]]]]];
    [left; reflexivity|].
  exists e, a. split; [exact Hp|].
  injection Hv as Hid _ Huri _. split; congruence.
Defined.

(** X11.  Reading a view of a step without a materializer class calls the
    loader once, with the string that the artifact record paired with the
    view's event holds under the property key, and makes the instance on a
    view whose uri is that record's uri. *)
Theorem read_of_a_step_view_loads_the_recorded_class (ext : Externals) (id_ : Z)
  (name : string) (parameters : list (string * pyval)) (store : MetadataStore.t)
  (l : list Access) (n : string) (v : PEArtifact.t) (calls : list Call) :
  In (n, v) (PEStep._inputs (self (accesses ext l (new_session id_ name parameters store))))
  \/ In (n, v) (PEStep._outputs (self (accesses ext l (new_session id_ name parameters store)))) ->
  exists (a : Artifact.t) (property : Value.t),
    In a (artifacts_of store id_)
    /\ properties_getitem ext (Artifact.properties a) (MATERIALIZERS_PROPERTY_KEY ext)
       = Ok property
    /\ PEArtifact.uri v = Artifact.uri a
    /\ read ext v None calls
       = (match load_source_path_class ext (Value.string_value property) with
          | Ok c => Materializer.handle_input (Materializer.init c v)
          | Raise x => Raise x
          end,
          calls ++ [Call_load_source_path_class (Value.string_value property)]).
Proof.
  destruct (reachable_entries_from_pairs ext id_ name parameters store l)
    as [_ [_ Hentries]].
  intros Hin.
  assert (Hp : exists p, In p (pairs_of store id_)
                         /\ resolve ext (type_mapping_of store) p = Ok (n, v)).
  { destruct Hin as [Hin | Hin].
    - destruct (Hentries Dir_input n v Hin) as [p [Hp [_ Hres]]]. now exists p.
    - destruct (Hentries Dir_output n v Hin) as [p [Hp [_ Hres]]]. now exists p. }
  destruct Hp as [[e a] [Hp Hres]].
  destruct (resolve_Ok_fields _ _ _ _ Hres) as [ty [property [_ [_ [_ [Hprop Hv]]]]]].
  exists a, property.
  split; [unfold pairs_of, zip in Hp; now apply in_combine_r in Hp|].
  split; [exact Hprop|]. subst v. split; [reflexivity|].
  unfold read, bind, call_load_source_path_class, lift. cbn [PEArtifact._materializer].
  destruct (load_source_path_class ext (Value.string_value property)); reflexivity.
Qed.

(** X11 at the sample store: reading the output "model". *)
Lemma read_of_a_step_view_loads_the_recorded_class_witness :
  exists (a : Artifact.t) (property : Value.t),
    In a (artifacts_of round_trip_store 1)
    /\ properties_getitem sample_ext (Artifact.properties a) "materializers" = Ok property
    /\ snd (read sample_ext
              {| PEArtifact._id := 20; PEArtifact._type := "Model";
                 PEArtifact._uri := "/a/20";
                 PEArtifact._materializer := "builtin.BuiltInMaterializer" |} None [])
       = [Call_load_source_path_class (Value.string_value property)].
Proof.
  destruct (@read_of_a_step_view_loads_the_recorded_class sample_ext 1 "trainer" []
              round_trip_store [Access_outputs] "model"
              {| PEArtifact._id := 20; PEArtifact._type := "Model";
                 PEArtifact._uri := "/a/20";
                 PEArtifact._materializer := "builtin.BuiltInMaterializer" |} [])
    as [a [property [Ha [Hprop [_ Hread]]]]];
    [right; left; reflexivity|].
  exists a, property. split; [exact Ha|]. split; [exact Hprop|].
  rewrite Hread. reflexivity.
Defined.

(** X12.  After any sequence of accesses a step view has at most as many
    inputs as there are paired INPUT events, at most as many outputs as
    there are paired OUTPUT events, and together at most as many as the
    store returned events, or artifact records, for the step. *)
Theorem mappings_are_no_larger_than_the_events (ext : Externals) (id_ : Z)
  (name : string) (parameters : list (string * pyval)) (store : MetadataStore.t)
  (l : list Access) :
  List.length (PEStep._inputs (self (accesses ext l (new_session id_ name parameters store))))
  <= List.length (filter (is_input ext) (map fst (pairs_of store id_)))
  /\ List.length (PEStep._outputs (self (accesses ext l (new_session id_ name parameters store))))
     <= List.length (filter (is_output ext) (map fst (pairs_of store id_)))
  /\ List.length (PEStep._inputs (self (accesses ext l (new_session id_ name parameters store))))
     + List.length (PEStep._outputs (self (accesses ext l (new_session id_ name parameters store))))
     <= Nat.min (List.length (events_of store id_)) (List.length (artifacts_of store id_)).
Proof.
  destruct (reachable_sizes_within_pairs ext id_ name parameters store l)
    as [_ [_ Hsizes]].
  pose proof (Hsizes Dir_input) as Hin. pose proof (Hsizes Dir_output) as Hout.
  cbn [mapping tagged] in Hin, Hout.
  split; [exact Hin|]. split; [exact Hout|].
  pose proof (tags_exclude ext (map fst (pairs_of store id_))) as Hex.
  rewrite length_map in Hex.
  pose proof (zip_length (events_of store id_) (artifacts_of store id_)) as Hzip.
  fold (pairs_of store id_) in Hzip.
  change (tagged ext Dir_input) with (is_input ext) in Hin.
  change (tagged ext Dir_output) with (is_output ext) in Hout.
  lia.
Qed.

(** * Properties of the examples and of their test *)

(** X13.  [example_runner] never raises: the command it returns ends with
    the path of the run script, alone when the environment does not define
    the shell variable, and after the value of that variable when it
    does. *)
Theorem example_runner_command (environ : list (string * string))
  (SHELL_EXECUTABLE EXAMPLES_RUN_SCRIPT : string)
  (path_str : string -> string -> string) (examples_dir : string) :
  (Dict.get environ SHELL_EXECUTABLE = None ->
   TestExamples.example_runner environ SHELL_EXECUTABLE EXAMPLES_RUN_SCRIPT path_str
     examples_dir
   = Ok [path_str examples_dir EXAMPLES_RUN_SCRIPT])
  /\ (forall shell : string,
         Dict.get environ SHELL_EXECUTABLE = Some shell ->
         TestExamples.example_runner environ SHELL_EXECUTABLE EXAMPLES_RUN_SCRIPT
           path_str examples_dir
         = Ok [shell; path_str examples_dir EXAMPLES_RUN_SCRIPT])
  /\ (exists command : list string,
         TestExamples.example_runner environ SHELL_EXECUTABLE EXAMPLES_RUN_SCRIPT
           path_str examples_dir
         = Ok command
         /\ 1 <= List.length command <= 2
         /\ last command "" = path_str examples_dir EXAMPLES_RUN_SCRIPT).
Proof.
  unfold TestExamples.example_runner, Dict.contains, Dict.getitem, and_then.
  destruct (Dict.get environ SHELL_EXECUTABLE) as [shell|].
  - split; [discriminate|]. split; [now intros ? [= <-]|].
    eexists. split; [reflexivity|]. cbn. split; [lia | reflexivity].
  - split; [reflexivity|]. split; [discriminate|].
    eexists. split; [reflexivity|]. cbn. split; [lia | reflexivity].
Qed.

(** X13 with and without the shell variable in the environment. *)
Lemma example_runner_command_witness :
  TestExamples.example_runner [("PATH", "/usr/bin")] "ZENML_SHELL" "run_example.sh"
    (fun d f => d ++ "/" ++ f)%string "examples"
  = Ok ["examples/run_example.sh"]
  /\ TestExamples.example_runner [("PATH", "/usr/bin"); ("ZENML_SHELL", "bash")]
       "ZENML_SHELL" "run_example.sh" (fun d f => d ++ "/" ++ f)%string "examples"
     = Ok ["bash"; "examples/run_example.sh"].
Proof.
  split.
  - apply (@example_runner_command [("PATH", "/usr/bin")] "ZENML_SHELL"
             "run_example.sh" (fun d f => d ++ "/" ++ f)%string "examples").
    reflexivity.
  - apply (@example_runner_command [("PATH", "/usr/bin"); ("ZENML_SHELL", "bash")]
             "ZENML_SHELL" "run_example.sh" (fun d f => d ++ "/" ++ f)%string
             "examples").
    reflexivity.
Defined.

(** X14.  [main] runs a pipeline for no task name other than
    "token-classification".  A name that is neither this one nor
    "sequence-classification" makes it return without a call and without a
    run.  The name "sequence-classification" makes it raise: when the
    configuration is constructed, the exception is the [AttributeError] for
    [seq_classifier_train_eval_pipeline], a name that
    [sequence_classification.py] does not bind (its pipeline is
    [train_eval_pipeline]), and the construction of the configuration is the
    only call made. *)
Theorem main_runs_only_token_classification (w : RunPipeline.World)
  (nlp_task pretrained_model : string) (batch_size epochs : Z)
  (effects : list RunPipeline.effect) :
  nlp_task <> "token-classification" ->
  filter RunPipeline.is_run
    (snd (RunPipeline.main w nlp_task pretrained_model batch_size epochs effects))
  = filter RunPipeline.is_run effects
  /\ (nlp_task <> "sequence-classification" ->
      RunPipeline.main w nlp_task pretrained_model batch_size epochs effects
      = (Ok tt, effects))
  /\ (nlp_task = "sequence-classification" ->
      (exists e : exn,
          fst (RunPipeline.main w nlp_task pretrained_model batch_size epochs effects)
          = Raise e)
      /\ (RunPipeline.call_result w
            (RunPipeline.Attribute "sequence_classification"
               "SequenceClassificationConfig")
            []
            [("pretrained_model", RunPipeline.Str pretrained_model);
             ("epochs", RunPipeline.Int epochs);
             ("batch_size", RunPipeline.Int batch_size)] = Ok tt ->
          RunPipeline.main w nlp_task pretrained_model batch_size epochs effects
          = (Raise (RunPipeline.AttributeError "sequence_classification"
                      "seq_classifier_train_eval_pipeline"),
             effects
             ++ [RunPipeline.Call_
                   (RunPipeline.Attribute "sequence_classification"
                      "SequenceClassificationConfig")
                   []
                   [("pretrained_model", RunPipeline.Str pretrained_model);
                    ("epochs", RunPipeline.Int epochs);
                    ("batch_size", RunPipeline.Int batch_size)]]))).
Proof.
  intros Htoken.
  destruct (String.eqb_spec nlp_task "sequence-classification") as [-> | Hsequence].
  - assert (Hmain : exists e : exn,
               RunPipeline.main w "sequence-classification" pretrained_model batch_size
                 epochs effects
               = (Raise e,
                  effects
                  ++ [RunPipeline.Call_
                        (RunPipeline.Attribute "sequence_classification"
                           "SequenceClassificationConfig")
                        []
                        [("pretrained_model", RunPipeline.Str pretrained_model);
                         ("epochs", RunPipeline.Int epochs);
                         ("batch_size", RunPipeline.Int batch_size)]])
               /\ (RunPipeline.call_result w
                     (RunPipeline.Attribute "sequence_classification"
                        "SequenceClassificationConfig")
                     []
                     [("pretrained_model", RunPipeline.Str pretrained_model);
                      ("epochs", RunPipeline.Int epochs);
                      ("batch_size", RunPipeline.Int batch_size)] = Ok tt ->
                   e = RunPipeline.AttributeError "sequence_classification"
                         "seq_classifier_train_eval_pipeline")).
    { cbn [RunPipeline.main String.eqb Ascii.eqb Bool.eqb].
      unfold RunPipeline.branch, bind at 1, RunPipeline.call.
      destruct (RunPipeline.call_result w
                  (RunPipeline.Attribute "sequence_classification"
                     "SequenceClassificationConfig") []
                  [("pretrained_model", RunPipeline.Str pretrained_model);
                   ("epochs", RunPipeline.Int epochs);
                   ("batch_size", RunPipeline.Int batch_size)]) as [[]|e].
      - eexists. split; reflexivity.
      - exists e. split; [reflexivity | discriminate]. }
    destruct Hmain as [e [Hmain Hattr]].
    split; [|split].
    + rewrite Hmain. cbn [snd]. rewrite filter_app. cbn. apply app_nil_r.
    + intros Hne. now contradiction Hne.
    + intros _. split; [exists e; now rewrite Hmain|].
      intros Hcall. rewrite Hmain. now rewrite (Hattr Hcall).
  - assert (Hmain : RunPipeline.main w nlp_task pretrained_model batch_size epochs effects
                    = (Ok tt, effects)).
    { unfold RunPipeline.main.
      apply String.eqb_neq in Htoken. apply String.eqb_neq in Hsequence.
      now rewrite Htoken, Hsequence. }
    split; [now rewrite Hmain|]. split; [intros _; exact Hmain|].
    intros Heq. contradiction.
Qed.

(** X14 in a world where every call and every run would return: the
    sequence task raises, a misspelt task does nothing. *)
Lemma main_runs_only_token_classification_witness :
  RunPipeline.main RunPipeline.obliging_world "sequence-classification"
    "distilbert-base-uncased" 8 3 []
  = (Raise (OtherError "AttributeError"
              "module 'sequence_classification' has no attribute 'seq_classifier_train_eval_pipeline'"),
     [RunPipeline.Call_
        (RunPipeline.Attribute "sequence_classification" "SequenceClassificationConfig")
        []
        [("pretrained_model", RunPipeline.Str "distilbert-base-uncased");
         ("epochs", RunPipeline.Int 3);
         ("batch_size", RunPipeline.Int 8)]])
  /\ RunPipeline.main RunPipeline.obliging_world "token-classificaion"
       "distilbert-base-uncased" 8 3 []
     = (Ok tt, []).
Proof.
  split.
  - destruct (@main_runs_only_token_classification RunPipeline.obliging_world
                "sequence-classification" "distilbert-base-uncased" 8 3 [])
      as [_ [_ Hsequence]]; [discriminate|].
    destruct (Hsequence eq_refl) as [_ Hattr].
    apply (Hattr eq_refl).
  - destruct (@main_runs_only_token_classification RunPipeline.obliging_world
                "token-classificaion" "distilbert-base-uncased" 8 3 [])
      as [_ [Hunknown _]]; [discriminate|].
    apply Hunknown. discriminate.
Defined.

(** X15.  The number of training steps of [trainer]: a batch size of zero
    raises [ZeroDivisionError]; for a positive batch size, a dataset that is
    not empty and a number of epochs that is not negative, the steps are not
    negative, cover at most the examples of all epochs and miss less than
    one batch per epoch, and a dataset smaller than one batch gets no step
    at all. *)
Theorem num_train_steps_bounds (train_len batch_size epochs : Z) :
  SequenceClassification.num_train_steps train_len 0 epochs
  = Raise (OtherError "ZeroDivisionError" "integer division or modulo by zero")
  /\ ((0 < batch_size)%Z -> (0 <= train_len)%Z -> (0 <= epochs)%Z ->
      exists n : Z,
        SequenceClassification.num_train_steps train_len batch_size epochs = Ok n
        /\ (0 <= n)%Z
        /\ (n * batch_size <= train_len * epochs)%Z
        /\ (train_len * epochs <= (n + epochs) * batch_size)%Z
        /\ ((0 < epochs)%Z -> (train_len * epochs < (n + epochs) * batch_size)%Z)
        /\ ((train_len < batch_size)%Z -> n = 0%Z)).
Proof.
  split; [reflexivity|].
  intros Hb Hl He. unfold SequenceClassification.num_train_steps.
  destruct (Z.eqb_spec batch_size 0) as [->|_]; [lia|].
  eexists. split; [reflexivity|].
  pose proof (Z.div_pos train_len batch_size Hl Hb) as Hq.
  pose proof (Z.mul_div_le train_len batch_size Hb) as Hle.
  pose proof (Z.mul_succ_div_gt train_len batch_size Hb) as Hgt.
  repeat split; try nia.
  intros Hsmall. rewrite Z.div_small by lia. lia.
Qed.

(** X15 at 25000 examples, batches of 16 and 3 epochs, and at a dataset of
    10 examples. *)
Lemma num_train_steps_bounds_witness :
  SequenceClassification.num_train_steps 25000 16 3 = Ok 4686%Z
  /\ exists n : Z,
       SequenceClassification.num_train_steps 10 16 3 = Ok n /\ n = 0%Z.
Proof.
  split; [reflexivity|].
  destruct (@num_train_steps_bounds 10 16 3) as [_ Hpos].
  destruct Hpos as [n [Hn [_ [_ [_ [_ Hsmall]]]]]]; try lia.
  exists n. split; [exact Hn | apply Hsmall; lia].
Defined.

(** X16.  [preprocess_function] raises the [KeyError] of "text" before the
    tokenizer is called when the examples have no text, passes on an error
    of the tokenizer, and raises the [KeyError] of "label" when the examples
    have no label; otherwise it returns what the tokenizer returned with the
    labels of the examples under "label", every other key keeping its value
    and its place. *)
Theorem preprocess_function_sets_label (V : Type)
  (tokenizer : V -> Z -> result (list (string * V))) (max_seq_length : Z)
  (examples : list (string * V)) :
  (Dict.get examples "text" = None ->
   SequenceClassification.preprocess_function tokenizer max_seq_length examples
   = Raise (KeyError (PyStr "text")))
  /\ (forall (text : V) (e : exn),
         Dict.get examples "text" = Some text ->
         tokenizer text max_seq_length = Raise e ->
         SequenceClassification.preprocess_function tokenizer max_seq_length examples
         = Raise e)
  /\ (forall (text : V) (tokens : list (string * V)),
         Dict.get examples "text" = Some text ->
         tokenizer text max_seq_length = Ok tokens ->
         Dict.get examples "label" = None ->
         SequenceClassification.preprocess_function tokenizer max_seq_length examples
         = Raise (KeyError (PyStr "label")))
  /\ (forall (text label : V) (tokens : list (string * V)),
         Dict.get examples "text" = Some text ->
         tokenizer text max_seq_length = Ok tokens ->
         Dict.get examples "label" = Some label ->
         exists out : list (string * V),
           SequenceClassification.preprocess_function tokenizer max_seq_length examples
           = Ok out
           /\ Dict.get out "label" = Some label
           /\ (forall k : string, k <> "label" -> Dict.get out k = Dict.get tokens k)
           /\ Dict.keys out
              = Dict.keys tokens ++ (if Dict.contains tokens "label" then [] else ["label"])).
Proof.
  unfold SequenceClassification.preprocess_function, Dict.getitem, and_then.
  split; [intros ->; reflexivity|].
  split; [intros text e -> ->; reflexivity|].
  split; [intros text tokens -> -> ->; reflexivity|].
  intros text label tokens -> -> ->.
  eexists. split; [reflexivity|].
  split; [apply get_setitem_same|].
  split; [intros k Hk; now apply get_setitem_other | apply keys_setitem].
Qed.

(** X16 with a tokenizer that returns the two columns of the example
    pipeline. *)
Lemma preprocess_function_sets_label_witness :
  exists out : list (string * pyval),
    SequenceClassification.preprocess_function
      (fun (_ : pyval) (_ : Z) => Ok [("input_ids", PyInt 101); ("attention_mask", PyInt 1)])
      128 [("text", PyStr "a film"); ("label", PyInt 1)]
    = Ok out
    /\ Dict.keys out = ["input_ids"; "attention_mask"; "label"]
    /\ Dict.get out "label" = Some (PyInt 1).
Proof.
  destruct (@preprocess_function_sets_label pyval
              (fun (_ : pyval) (_ : Z) =>
                 Ok [("input_ids", PyInt 101); ("attention_mask", PyInt 1)])
              128 [("text", PyStr "a film"); ("label", PyInt 1)])
    as [_ [_ [_ Hok]]].
  destruct (Hok (PyStr "a film") (PyInt 1)
              [("input_ids", PyInt 101); ("attention_mask", PyInt 1)]
              eq_refl eq_refl eq_refl) as [out [Hout [Hlabel [_ Hkeys]]]].
  exists out. split; [exact Hout|]. split; [exact Hkeys | exact Hlabel].
Defined.
